(** * Knob compatibility filters (Engine/LoadKnobsCompat.cpp)

    A shallow embedding of the legacy-name rewrite engine of
    [Engine/LoadKnobsCompat.cpp] and the properties of its specification.

    Conventions of the embedding:
    - [std::string] is [string] (a list of 8-bit characters);
    - [int] is [Z]; the code only compares version numbers, it never does
      arithmetic on them, so no wrap-around can occur;
    - [std::list] and [std::vector] are [list], in insertion order;
    - the function pointer type [stringFuncPtr] is the closed enumeration of
      the four comparison functions the file defines, called through
      [call];
    - a function with an output parameter [std::string* name] returns the
      pair of its boolean result and the final content of [*name]. *)

From Stdlib Require Import ZArith Bool List Ascii String Lia.
From Stdlib Require Import Permutation.
Import ListNotations.

Open Scope string_scope.
Open Scope list_scope.
Open Scope Z_scope.

(** ** String comparison functions *)

(** [std::string::substr(0, n)]: the first [n] characters, or the whole
    string when it is shorter. *)
Fixpoint substr0 (n : nat) (str : string) : string :=
  match n, str with
  | O, _ => EmptyString
  | S _, EmptyString => EmptyString
  | S n', String c str' => String c (substr0 n' str')
  end.

(** [std::string::substr(pos, n)] for [pos <= size]. *)
Fixpoint substr (pos n : nat) (str : string) : string :=
  match pos, str with
  | O, _ => substr0 n str
  | S _, EmptyString => EmptyString
  | S pos', String _ str' => substr pos' n str'
  end.

Definition startsWith (str prefix : string) : bool :=
  String.eqb (substr0 (String.length prefix) str) prefix.

(** [str.compare(pos, len, suffix) == 0] compares [substr(pos, len)] with
    [suffix]. *)
Definition endsWith (str suffix : string) : bool :=
  Nat.leb (String.length suffix) (String.length str) &&
  String.eqb
    (substr (String.length str - String.length suffix) (String.length suffix) str)
    suffix.

Definition equalsStringCaseSensitive (str1 str2 : string) : bool :=
  String.eqb str1 str2.

(** [std::toupper] of the classic locale: the letters [a]..[z] are mapped to
    [A]..[Z], every other character to itself. *)
Definition toupper (c : ascii) : ascii :=
  let n := nat_of_ascii c in
  if Nat.leb 97 n && Nat.leb n 122 then ascii_of_nat (n - 32) else c.

(** [boost::iequals]: walks both ranges together, comparing the upper-cased
    characters, and requires both to end at the same time. *)
Fixpoint iequals (str1 str2 : string) : bool :=
  match str1, str2 with
  | EmptyString, EmptyString => true
  | String c1 s1, String c2 s2 =>
      Ascii.eqb (toupper c1) (toupper c2) && iequals s1 s2
  | _, _ => false
  end.

Definition equalsStringCaseInsensitive (str1 str2 : string) : bool :=
  iequals str1 str2.

(** [typedef bool ( *stringFuncPtr)(const std::string&, const std::string&)]:
    the only functions of that type in the file. *)
Inductive stringFuncPtr : Type :=
| fn_startsWith
| fn_endsWith
| fn_equalsStringCaseSensitive
| fn_equalsStringCaseInsensitive.

Definition call (func : stringFuncPtr) (str1 str2 : string) : bool :=
  match func with
  | fn_startsWith => startsWith str1 str2
  | fn_endsWith => endsWith str1 str2
  | fn_equalsStringCaseSensitive => equalsStringCaseSensitive str1 str2
  | fn_equalsStringCaseInsensitive => equalsStringCaseInsensitive str1 str2
  end.

Definition stringFuncPtr_eqb (f g : stringFuncPtr) : bool :=
  match f, g with
  | fn_startsWith, fn_startsWith
  | fn_endsWith, fn_endsWith
  | fn_equalsStringCaseSensitive, fn_equalsStringCaseSensitive
  | fn_equalsStringCaseInsensitive, fn_equalsStringCaseInsensitive => true
  | _, _ => false
  end.

(** [std::string::empty] and [std::list::empty]. *)
Definition str_empty (s : string) : bool :=
  match s with EmptyString => true | String _ _ => false end.

Definition list_empty {A : Type} (l : list A) : bool :=
  match l with [] => true | _ :: _ => false end.

(** ** Data model

    The structures keep the member names of the source, except where two
    structures share one: the member [func] of [PluginMatch] is
    [pluginFunc]; the members of [KnobNameFilter] and of
    [KnobChoiceOptionFilter] are prefixed, and the shared names [filters],
    [replacement], [natronVersionMin] and [natronVersionMax] are the methods
    of the class [KnobFilterLike] below. *)

Record FilterMatcher : Type := mkFilterMatcher {
  nameToMatch : string;
  func : stringFuncPtr
}.

Record PluginMatch : Type := mkPluginMatch {
  pluginID : string;
  pluginVersionMajorMin : Z;
  pluginVersionMinorMin : Z;
  pluginVersionMajorMax : Z;
  pluginVersionMinorMax : Z;
  pluginFunc : stringFuncPtr
}.

Record KnobMatch : Type := mkKnobMatch {
  plugin : list PluginMatch;
  filter : FilterMatcher
}.

Record NatronVersionMatch : Type := mkNatronVersionMatch {
  vMajor : Z;
  vMinor : Z;
  vRev : Z
}.

(** The default constructor of [NatronVersionMatch]. *)
Definition NatronVersionMatch_default : NatronVersionMatch :=
  mkNatronVersionMatch (-1) (-1) (-1).

Record KnobNameFilter : Type := mkKnobNameFilter {
  nameFilters : list KnobMatch;
  nameReplacement : string;
  nameVersionMin : NatronVersionMatch;
  nameVersionMax : NatronVersionMatch
}.

Record KnobChoiceOptionFilter : Type := mkKnobChoiceOptionFilter {
  choiceFilters : list KnobMatch;
  optionFilters : list FilterMatcher;
  choiceReplacement : string;
  choiceVersionMin : NatronVersionMatch;
  choiceVersionMax : NatronVersionMatch
}.

(** The members that the templates over [FILTER] use
    ([addKnobFilter], [setNatronVersionMin], [setNatronVersionMax] and
    [matchKnobFilterInternal]): both filter structures provide them. *)
Class KnobFilterLike (FILTER : Type) : Type := {
  filters : FILTER -> list KnobMatch;
  replacement : FILTER -> string;
  natronVersionMin : FILTER -> NatronVersionMatch;
  natronVersionMax : FILTER -> NatronVersionMatch;
  set_filters : list KnobMatch -> FILTER -> FILTER;
  set_natronVersionMin : NatronVersionMatch -> FILTER -> FILTER;
  set_natronVersionMax : NatronVersionMatch -> FILTER -> FILTER
}.

#[export] Instance KnobNameFilter_like : KnobFilterLike KnobNameFilter := {
  filters := nameFilters;
  replacement := nameReplacement;
  natronVersionMin := nameVersionMin;
  natronVersionMax := nameVersionMax;
  set_filters l f :=
    mkKnobNameFilter l (nameReplacement f) (nameVersionMin f) (nameVersionMax f);
  set_natronVersionMin v f :=
    mkKnobNameFilter (nameFilters f) (nameReplacement f) v (nameVersionMax f);
  set_natronVersionMax v f :=
    mkKnobNameFilter (nameFilters f) (nameReplacement f) (nameVersionMin f) v
}.

#[export] Instance KnobChoiceOptionFilter_like
  : KnobFilterLike KnobChoiceOptionFilter := {
  filters := choiceFilters;
  replacement := choiceReplacement;
  natronVersionMin := choiceVersionMin;
  natronVersionMax := choiceVersionMax;
  set_filters l f :=
    mkKnobChoiceOptionFilter l (optionFilters f) (choiceReplacement f)
      (choiceVersionMin f) (choiceVersionMax f);
  set_natronVersionMin v f :=
    mkKnobChoiceOptionFilter (choiceFilters f) (optionFilters f)
      (choiceReplacement f) v (choiceVersionMax f);
  set_natronVersionMax v f :=
    mkKnobChoiceOptionFilter (choiceFilters f) (optionFilters f)
      (choiceReplacement f) (choiceVersionMin f) v
}.

(** The default constructors: empty lists, empty replacement, open ranges. *)
Definition KnobNameFilter_default : KnobNameFilter :=
  mkKnobNameFilter [] "" NatronVersionMatch_default NatronVersionMatch_default.

Definition KnobChoiceOptionFilter_default : KnobChoiceOptionFilter :=
  mkKnobChoiceOptionFilter [] [] ""
    NatronVersionMatch_default NatronVersionMatch_default.

(** ** Builders

    In the source [addKnobFilter] pushes a [KnobMatch] and returns a
    reference to the back of the list, through which the following block
    adds the plug-in constraints; likewise [addPluginMatch] returns a
    reference through which [p.func] is overwritten.  Here the element is
    completed first and pushed afterwards, which builds the same lists. *)

(** The [KnobMatch] that [addKnobFilter] creates, before it is pushed. *)
Definition newKnobMatch (nameToMatch : string) (func : stringFuncPtr)
  : KnobMatch :=
  mkKnobMatch [] (mkFilterMatcher nameToMatch func).

(** [addPluginMatch(m, pluginID, majorMin, minorMin, majorMax, minorMax)];
    the comparison is always [equalsStringCaseInsensitive]. *)
Definition addPluginMatch (pluginID : string)
  (pluginMajorMin pluginMinorMin pluginMajorMax pluginMinorMax : Z)
  (f : KnobMatch) : KnobMatch :=
  mkKnobMatch
    (plugin f ++
     [mkPluginMatch pluginID pluginMajorMin pluginMinorMin
        pluginMajorMax pluginMinorMax fn_equalsStringCaseInsensitive])
    (filter f).

(** [p.func = func] through the reference [p] to the back of [f.plugin]. *)
Definition setBackFunc (func : stringFuncPtr) (f : KnobMatch) : KnobMatch :=
  match rev (plugin f) with
  | [] => f
  | p :: before =>
      mkKnobMatch
        (rev before ++
         [mkPluginMatch (pluginID p)
            (pluginVersionMajorMin p) (pluginVersionMinorMin p)
            (pluginVersionMajorMax p) (pluginVersionMinorMax p) func])
        (filter f)
  end.

(** [PluginMatch& p = addPluginMatch(m, pluginID); p.func = func;] with the
    default arguments of [addPluginMatch] for the four version fields. *)
Definition addPluginMatchWith (pluginID : string) (func : stringFuncPtr)
  (f : KnobMatch) : KnobMatch :=
  setBackFunc func (addPluginMatch pluginID (-1) (-1) (-1) (-1) f).

(** [addKnobFilter] followed by the block that completes the element. *)
Definition addKnobFilter {FILTER : Type} `{KnobFilterLike FILTER}
  (m : KnobMatch) (f : FILTER) : FILTER :=
  set_filters (filters f ++ [m]) f.

Definition addOptionFilter (nameToMatch : string) (func : stringFuncPtr)
  (f : KnobChoiceOptionFilter) : KnobChoiceOptionFilter :=
  mkKnobChoiceOptionFilter (choiceFilters f)
    (optionFilters f ++ [mkFilterMatcher nameToMatch func])
    (choiceReplacement f) (choiceVersionMin f) (choiceVersionMax f).

Definition setNatronVersionMin {FILTER : Type} `{KnobFilterLike FILTER}
  (major minor rev : Z) (f : FILTER) : FILTER :=
  set_natronVersionMin (mkNatronVersionMatch major minor rev) f.

Definition setNatronVersionMax {FILTER : Type} `{KnobFilterLike FILTER}
  (major minor rev : Z) (f : FILTER) : FILTER :=
  set_natronVersionMax (mkNatronVersionMatch major minor rev) f.

Definition setNameReplacement (r : string) (f : KnobNameFilter)
  : KnobNameFilter :=
  mkKnobNameFilter (nameFilters f) r (nameVersionMin f) (nameVersionMax f).

Definition setChoiceReplacement (r : string) (f : KnobChoiceOptionFilter)
  : KnobChoiceOptionFilter :=
  mkKnobChoiceOptionFilter (choiceFilters f) (optionFilters f) r
    (choiceVersionMin f) (choiceVersionMax f).

(** ** [matchKnobFilterInternal]

    The [assert]s of the source do not contribute to the result: their
    conditions are the predicates [assertReplacement] and
    [assertOptionFilters] below, which hold on every entry of the
    registries. *)

(** The condition of the first [if]: the Natron version is below the
    minimum of the filter. *)
Definition natronVersionBelowMin (vmin : NatronVersionMatch)
  (natronVersionMajor natronVersionMinor natronVersionRevision : Z) : bool :=
  negb (natronVersionMajor =? -1) &&
  negb (vMajor vmin =? -1) &&
  ((natronVersionMajor <? vMajor vmin) ||
   (negb (vMinor vmin =? -1) &&
    (((natronVersionMajor =? vMajor vmin) &&
      (natronVersionMinor <? vMinor vmin)) ||
     (negb (vRev vmin =? -1) &&
      (natronVersionMajor =? vMajor vmin) &&
      (natronVersionMinor =? vMinor vmin) &&
      (natronVersionRevision <? vRev vmin))))).

(** The condition of the second [if]: the Natron version is above the
    maximum of the filter. *)
Definition natronVersionAboveMax (vmax : NatronVersionMatch)
  (natronVersionMajor natronVersionMinor natronVersionRevision : Z) : bool :=
  negb (natronVersionMajor =? -1) &&
  negb (vMajor vmax =? -1) &&
  ((natronVersionMajor >? vMajor vmax) ||
   (negb (vMinor vmax =? -1) &&
    (((natronVersionMajor =? vMajor vmax) &&
      (natronVersionMinor >? vMinor vmax)) ||
     (negb (vRev vmax =? -1) &&
      (natronVersionMajor =? vMajor vmax) &&
      (natronVersionMinor =? vMinor vmax) &&
      (natronVersionRevision >? vRev vmax))))).

(** The two version tests inside the loop over the plug-ins. *)
Definition pluginVersionBelowMin (it2 : PluginMatch)
  (pluginVersionMajor pluginVersionMinor : Z) : bool :=
  negb (pluginVersionMajor =? -1) &&
  negb (pluginVersionMajorMin it2 =? -1) &&
  ((pluginVersionMajor <? pluginVersionMajorMin it2) ||
   (negb (pluginVersionMinorMin it2 =? -1) &&
    (pluginVersionMajor =? pluginVersionMajorMin it2) &&
    (pluginVersionMinor <? pluginVersionMinorMin it2))).

Definition pluginVersionAboveMax (it2 : PluginMatch)
  (pluginVersionMajor pluginVersionMinor : Z) : bool :=
  negb (pluginVersionMajor =? -1) &&
  negb (pluginVersionMajorMax it2 =? -1) &&
  ((pluginVersionMajor >? pluginVersionMajorMax it2) ||
   (negb (pluginVersionMinorMax it2 =? -1) &&
    (pluginVersionMajor =? pluginVersionMajorMax it2) &&
    (pluginVersionMinor >? pluginVersionMinorMax it2))).

(** How the inner loop over [it->plugin] ends: either it leaves
    [matchKnobFilterInternal] with [return false], or it runs to its end or
    to [break] with the flag [matchPlugin]. *)
Inductive PluginScan : Type :=
| ReturnFalse
| LoopDone (matchPlugin : bool).

Fixpoint scanPlugins (l : list PluginMatch) (pluginId : string)
  (pluginVersionMajor pluginVersionMinor : Z) : PluginScan :=
  match l with
  | [] => LoopDone false
  | it2 :: rest =>
      if negb (call (pluginFunc it2) pluginId (pluginID it2)) then
        scanPlugins rest pluginId pluginVersionMajor pluginVersionMinor
      else if pluginVersionBelowMin it2 pluginVersionMajor pluginVersionMinor
      then ReturnFalse
      else if pluginVersionAboveMax it2 pluginVersionMajor pluginVersionMinor
      then ReturnFalse
      else LoopDone true
  end.

(** The loop over [filter.filters]. *)
Fixpoint scanKnobMatches (l : list KnobMatch) (name pluginId : string)
  (pluginVersionMajor pluginVersionMinor : Z) : bool :=
  match l with
  | [] => false
  | it :: rest =>
      let next :=
        scanKnobMatches rest name pluginId pluginVersionMajor pluginVersionMinor
      in
      let testName :=
        if call (func (filter it)) name (nameToMatch (filter it))
        then true else next in
      if negb (list_empty (plugin it)) then
        match scanPlugins (plugin it) pluginId
                pluginVersionMajor pluginVersionMinor with
        | ReturnFalse => false
        | LoopDone false => next
        | LoopDone true => testName
        end
      else testName
  end.

Definition matchKnobFilterInternal {FILTER : Type} `{KnobFilterLike FILTER}
  (f : FILTER) (name pluginId : string)
  (pluginVersionMajor pluginVersionMinor : Z)
  (natronVersionMajor natronVersionMinor natronVersionRevision : Z) : bool :=
  if natronVersionBelowMin (natronVersionMin f)
       natronVersionMajor natronVersionMinor natronVersionRevision
  then false
  else if natronVersionAboveMax (natronVersionMax f)
            natronVersionMajor natronVersionMinor natronVersionRevision
  then false
  else if negb (list_empty (filters f)) then
    scanKnobMatches (filters f) name pluginId
      pluginVersionMajor pluginVersionMinor
  else true.

(** ** The two registries *)

(** The identifiers of [ofxNatron.h] that the registries use.  The header is
    not part of the development: its macros are parameters here, and no
    property below depends on their values except where it says so. *)
Class OfxNatronNames : Type := {
  kNatronOfxParamProcessR : string;
  kNatronOfxParamProcessG : string;
  kNatronOfxParamProcessB : string;
  kNatronOfxParamProcessA : string;
  kNatronColorPlaneID : string;
  kNatronBackwardMotionVectorsPlaneID : string;
  kNatronForwardMotionVectorsPlaneID : string;
  kNatronDisparityLeftPlaneID : string;
  kNatronDisparityRightPlaneID : string;
  kNatronMotionComponentsLabel : string;
  kNatronDisparityComponentsLabel : string
}.

(** Adjacent string literals are concatenated by the C++ compiler. *)
Local Infix "+++" := String.append (at level 60, right associativity).

(** A block of statements that update the same object, in source order. *)
Definition build {A : Type} (init : A) (steps : list (A -> A)) : A :=
  fold_left (fun acc step => step acc) steps init.

Section Registries.

Context {names : OfxNatronNames}.

(** The four filters of the name registry, one per channel checkbox. *)
Definition nameFilter_R : KnobNameFilter :=
  build KnobNameFilter_default
    [ setNameReplacement kNatronOfxParamProcessR;
      addKnobFilter
        (build (newKnobMatch "r" fn_equalsStringCaseSensitive)
           [ addPluginMatchWith "fr.inria." fn_startsWith;
             addPluginMatchWith "net.sf.openfx." fn_startsWith ]);
      addKnobFilter
        (build (newKnobMatch "doRed" fn_equalsStringCaseSensitive)
           [ addPluginMatchWith "fr.inria." fn_startsWith;
             addPluginMatchWith "net.sf.openfx." fn_startsWith ]);
      setNatronVersionMax 2 2 99 ].

Definition nameFilter_G : KnobNameFilter :=
  build KnobNameFilter_default
    [ setNameReplacement kNatronOfxParamProcessG;
      addKnobFilter
        (build (newKnobMatch "g" fn_equalsStringCaseSensitive)
           [ addPluginMatchWith "fr.inria." fn_startsWith;
             addPluginMatchWith "net.sf.openfx." fn_startsWith ]);
      addKnobFilter
        (build (newKnobMatch "doGreen" fn_equalsStringCaseSensitive)
           [ addPluginMatchWith "fr.inria." fn_startsWith;
             addPluginMatchWith "net.sf.openfx." fn_startsWith ]);
      setNatronVersionMax 2 2 99 ].

Definition nameFilter_B : KnobNameFilter :=
  build KnobNameFilter_default
    [ setNameReplacement kNatronOfxParamProcessB;
      addKnobFilter
        (build (newKnobMatch "b" fn_equalsStringCaseSensitive)
           [ addPluginMatchWith "fr.inria." fn_startsWith;
             addPluginMatchWith "net.sf.openfx." fn_startsWith ]);
      addKnobFilter
        (build (newKnobMatch "doBlue" fn_equalsStringCaseSensitive)
           [ addPluginMatchWith "fr.inria." fn_startsWith;
             addPluginMatchWith "net.sf.openfx." fn_startsWith ]);
      setNatronVersionMax 2 2 99 ].

Definition nameFilter_A : KnobNameFilter :=
  build KnobNameFilter_default
    [ setNameReplacement kNatronOfxParamProcessA;
      addKnobFilter
        (build (newKnobMatch "a" fn_equalsStringCaseSensitive)
           [ addPluginMatchWith "fr.inria." fn_startsWith;
             addPluginMatchWith "net.sf.openfx." fn_startsWith ]);
      addKnobFilter
        (build (newKnobMatch "doAlpha" fn_equalsStringCaseSensitive)
           [ addPluginMatchWith "fr.inria." fn_startsWith;
             addPluginMatchWith "net.sf.openfx." fn_startsWith ]);
      setNatronVersionMax 2 2 99 ].

(** [KnobNameFilters::KnobNameFilters()], in [push_back] order. *)
Definition knobNameFilters : list KnobNameFilter :=
  [ nameFilter_R; nameFilter_G; nameFilter_B; nameFilter_A ].

(** The five plane filters at the head of the option registry: they differ
    in their replacement and in their option patterns only. *)
Definition planeFilter (repl : string) (options : list string)
  : KnobChoiceOptionFilter :=
  build KnobChoiceOptionFilter_default
    ([ setChoiceReplacement repl;
       addKnobFilter (newKnobMatch "outputChannels" fn_equalsStringCaseSensitive);
       addKnobFilter (newKnobMatch "channels" fn_endsWith);
       setNatronVersionMax 2 2 99 ]
     ++ map (fun o => addOptionFilter o fn_equalsStringCaseInsensitive) options).

(** [channelsFilterBase]: it is never pushed itself, each channel filter
    starts as a copy of it. *)
Definition channelsFilterBase : KnobChoiceOptionFilter :=
  build KnobChoiceOptionFilter_default
    [ addKnobFilter (newKnobMatch "maskChannel" fn_startsWith);
      addKnobFilter (newKnobMatch "premultChannel" fn_equalsStringCaseSensitive);
      addKnobFilter
        (build (newKnobMatch "channelU" fn_equalsStringCaseSensitive)
           [ addPluginMatch "net.sf.openfx.IDistort" (-1) (-1) (-1) (-1);
             addPluginMatch "net.sf.openfx.STMap" (-1) (-1) (-1) (-1) ]);
      addKnobFilter
        (build (newKnobMatch "channelV" fn_equalsStringCaseSensitive)
           [ addPluginMatch "net.sf.openfx.IDistort" (-1) (-1) (-1) (-1);
             addPluginMatch "net.sf.openfx.STMap" (-1) (-1) (-1) (-1) ]);
      addKnobFilter
        (build (newKnobMatch "outputR" fn_equalsStringCaseSensitive)
           [ addPluginMatch "net.sf.openfx.ShufflePlugin" 2 (-1) (-1) (-1) ]);
      addKnobFilter
        (build (newKnobMatch "outputG" fn_equalsStringCaseSensitive)
           [ addPluginMatch "net.sf.openfx.ShufflePlugin" 2 (-1) (-1) (-1) ]);
      addKnobFilter
        (build (newKnobMatch "outputB" fn_equalsStringCaseSensitive)
           [ addPluginMatch "net.sf.openfx.ShufflePlugin" 2 (-1) (-1) (-1) ]);
      addKnobFilter
        (build (newKnobMatch "outputA" fn_equalsStringCaseSensitive)
           [ addPluginMatch "net.sf.openfx.ShufflePlugin" 2 (-1) (-1) (-1) ]);
      setNatronVersionMax 2 2 99 ].

(** A channel filter: a copy of [channelsFilterBase], then its option
    patterns, then its replacement. *)
Definition channelFilter (options : list string) (repl : string)
  : KnobChoiceOptionFilter :=
  build channelsFilterBase
    (map (fun o => addOptionFilter o fn_equalsStringCaseInsensitive) options
     ++ [ setChoiceReplacement repl ]).

(** The three filters of the writers ([fr.inria.openfx.Write*] and
    [fr.inria.built-in.Write]). *)
Definition writerFilter (repl param option : string)
  (versionMax : list (KnobChoiceOptionFilter -> KnobChoiceOptionFilter))
  : KnobChoiceOptionFilter :=
  build KnobChoiceOptionFilter_default
    ([ setChoiceReplacement repl;
       addKnobFilter
         (build (newKnobMatch param fn_equalsStringCaseSensitive)
            [ addPluginMatchWith "fr.inria." fn_startsWith ]);
       addOptionFilter option fn_equalsStringCaseInsensitive ]
     ++ versionMax).

(** [KnobChoiceOptionFilters::KnobChoiceOptionFilters()], in [push_back]
    order. *)
Definition knobChoiceOptionFilters : list KnobChoiceOptionFilter :=
  [ planeFilter kNatronColorPlaneID
      [ "RGBA"; "RGB"; "Alpha"; "Color.RGBA"; "Color.RGB"; "Color.Alpha" ];
    planeFilter
      (kNatronBackwardMotionVectorsPlaneID +++ "." +++ kNatronMotionComponentsLabel)
      [ "Backward.Motion" ];
    planeFilter
      (kNatronForwardMotionVectorsPlaneID +++ "." +++ kNatronMotionComponentsLabel)
      [ "Forward.Motion" ];
    planeFilter
      (kNatronDisparityLeftPlaneID +++ "." +++ kNatronDisparityComponentsLabel)
      [ "DisparityLeft.Disparity" ];
    planeFilter
      (kNatronDisparityRightPlaneID +++ "." +++ kNatronDisparityComponentsLabel)
      [ "DisparityRight.Disparity" ];
    channelFilter [ "RGBA.R"; "UV.r"; "red"; "r" ] (kNatronColorPlaneID +++ ".R");
    channelFilter [ "RGBA.G"; "UV.g"; "green"; "g" ] (kNatronColorPlaneID +++ ".G");
    channelFilter [ "RGBA.B"; "UV.b"; "blue"; "b" ] (kNatronColorPlaneID +++ ".B");
    channelFilter [ "RGBA.A"; "UV.a"; "alpha"; "a" ] (kNatronColorPlaneID +++ ".A");
    channelFilter [ "A.r" ] ("A." +++ kNatronColorPlaneID +++ ".R");
    channelFilter [ "A.g" ] ("A." +++ kNatronColorPlaneID +++ ".G");
    channelFilter [ "A.b" ] ("A." +++ kNatronColorPlaneID +++ ".b");
    channelFilter [ "A.a" ] ("A." +++ kNatronColorPlaneID +++ ".A");
    channelFilter [ "B.r" ] ("B." +++ kNatronColorPlaneID +++ ".R");
    channelFilter [ "B.g" ] ("B." +++ kNatronColorPlaneID +++ ".G");
    channelFilter [ "B.b" ] ("B." +++ kNatronColorPlaneID +++ ".B");
    channelFilter [ "B.a" ] ("B." +++ kNatronColorPlaneID +++ ".A");
    writerFilter "project" "frameRange" "Timeline bounds"
      [ setNatronVersionMax 1 (-1) (-1) ];
    writerFilter "8u" "bitDepth" "8i" [];
    writerFilter "16u" "bitDepth" "16i" [] ].

End Registries.

(** ** The two lookups *)

(** The loop of [filterKnobNameCompat] over a vector of filters. *)
Fixpoint filterKnobNameLoop (l : list KnobNameFilter) (pluginId : string)
  (pluginVersionMajor pluginVersionMinor : Z)
  (natronVersionMajor natronVersionMinor natronVersionRevision : Z)
  (name : string) : bool * string :=
  match l with
  | [] => (false, name)
  | f :: rest =>
      if negb (matchKnobFilterInternal f name pluginId
                 pluginVersionMajor pluginVersionMinor
                 natronVersionMajor natronVersionMinor natronVersionRevision)
      then filterKnobNameLoop rest pluginId
             pluginVersionMajor pluginVersionMinor
             natronVersionMajor natronVersionMinor natronVersionRevision name
      else (true, replacement f)
  end.

(** The loop over [filter.optionFilters]: does some pattern match? *)
Fixpoint scanOptionFilters (l : list FilterMatcher) (name : string) : bool :=
  match l with
  | [] => false
  | it :: rest =>
      if call (func it) name (nameToMatch it) then true
      else scanOptionFilters rest name
  end.

(** The loop of [filterKnobChoiceOptionCompat] over a vector of filters. *)
Fixpoint filterKnobChoiceOptionLoop (l : list KnobChoiceOptionFilter)
  (pluginId : string) (pluginVersionMajor pluginVersionMinor : Z)
  (natronVersionMajor natronVersionMinor natronVersionRevision : Z)
  (paramName name : string) : bool * string :=
  match l with
  | [] => (false, name)
  | f :: rest =>
      let next :=
        filterKnobChoiceOptionLoop rest pluginId
          pluginVersionMajor pluginVersionMinor
          natronVersionMajor natronVersionMinor natronVersionRevision
          paramName name in
      if matchKnobFilterInternal f paramName pluginId
           pluginVersionMajor pluginVersionMinor
           natronVersionMajor natronVersionMinor natronVersionRevision
      then
        if scanOptionFilters (optionFilters f) name
        then (true, replacement f)
        else next
      else next
  end.

Section Lookups.

Context {names : OfxNatronNames}.

Definition filterKnobNameCompat (pluginId : string)
  (pluginVersionMajor pluginVersionMinor : Z)
  (natronVersionMajor natronVersionMinor natronVersionRevision : Z)
  (name : string) : bool * string :=
  filterKnobNameLoop knobNameFilters pluginId
    pluginVersionMajor pluginVersionMinor
    natronVersionMajor natronVersionMinor natronVersionRevision name.

Definition filterKnobChoiceOptionCompat (pluginId : string)
  (pluginVersionMajor pluginVersionMinor : Z)
  (natronVersionMajor natronVersionMinor natronVersionRevision : Z)
  (paramName name : string) : bool * string :=
  filterKnobChoiceOptionLoop knobChoiceOptionFilters pluginId
    pluginVersionMajor pluginVersionMinor
    natronVersionMajor natronVersionMinor natronVersionRevision
    paramName name.

End Lookups.

(** An instance of the identifiers, for the closed examples below. *)
Definition sampleNames : OfxNatronNames := {|
  kNatronOfxParamProcessR := "NatronOfxParamProcessR";
  kNatronOfxParamProcessG := "NatronOfxParamProcessG";
  kNatronOfxParamProcessB := "NatronOfxParamProcessB";
  kNatronOfxParamProcessA := "NatronOfxParamProcessA";
  kNatronColorPlaneID := "uk.co.thefoundry.OfxImagePlaneColour";
  kNatronBackwardMotionVectorsPlaneID :=
    "uk.co.thefoundry.OfxImagePlaneBackMotionVector";
  kNatronForwardMotionVectorsPlaneID :=
    "uk.co.thefoundry.OfxImagePlaneForwardMotionVector";
  kNatronDisparityLeftPlaneID :=
    "uk.co.thefoundry.OfxImagePlaneStereoDisparityLeft";
  kNatronDisparityRightPlaneID :=
    "uk.co.thefoundry.OfxImagePlaneStereoDisparityRight";
  kNatronMotionComponentsLabel := "Motion";
  kNatronDisparityComponentsLabel := "Disparity"
|}.

(** ** Specification-side definitions *)

(** A version is inside the range of a plug-in constraint. *)
Definition pluginVersionInRange (p : PluginMatch)
  (pluginVersionMajor pluginVersionMinor : Z) : bool :=
  negb (pluginVersionBelowMin p pluginVersionMajor pluginVersionMinor) &&
  negb (pluginVersionAboveMax p pluginVersionMajor pluginVersionMinor).

(** The plug-in gate as the specification words it: a plain disjunction
    over the constraints of identifier match and version in range. *)
Definition pluginGateSpec (l : list PluginMatch) (pluginId : string)
  (pluginVersionMajor pluginVersionMinor : Z) : bool :=
  existsb (fun p =>
             call (pluginFunc p) pluginId (pluginID p) &&
             pluginVersionInRange p pluginVersionMajor pluginVersionMinor) l.

(** An alternative as the specification words it: its plug-in gate (open
    when it lists no plug-in) and its name pattern. *)
Definition knobMatchSpec (it : KnobMatch) (name pluginId : string)
  (pluginVersionMajor pluginVersionMinor : Z) : bool :=
  (list_empty (plugin it) ||
   pluginGateSpec (plugin it) pluginId pluginVersionMajor pluginVersionMinor)
  && call (func (filter it)) name (nameToMatch (filter it)).

(** The string with every character upper-cased: two strings differ in
    letter case only when their images are equal. *)
Fixpoint upcase (s : string) : string :=
  match s with
  | EmptyString => EmptyString
  | String c s' => String (toupper c) (upcase s')
  end.

(** Every plug-in constraint of the filter keeps the comparison that
    [addPluginMatch] installs. *)
Definition defaultPluginComparison (l : list KnobMatch) : bool :=
  forallb (fun it =>
             forallb (fun p =>
                        stringFuncPtr_eqb (pluginFunc p)
                          fn_equalsStringCaseInsensitive)
                     (plugin it)) l.

(** The conditions of the three [assert]s, on one filter. *)
Definition assertReplacement {FILTER : Type} `{KnobFilterLike FILTER}
  (f : FILTER) : bool :=
  negb (str_empty (replacement f)).

Definition assertOptionFilters (f : KnobChoiceOptionFilter) : bool :=
  negb (list_empty (optionFilters f)).

(** The host version is not above 2.2.99, or is unknown. *)
Definition upTo_2_2_99 (major minor rev : Z) : Prop :=
  major = -1 \/ major < 2 \/ (major = 2 /\ minor < 2) \/
  (major = 2 /\ minor = 2 /\ rev <= 99).

(** The whole matcher as the specification words it: both host bounds,
    then a disjunction over the alternatives. *)
Definition matchKnobFilterSpec {FILTER : Type} `{KnobFilterLike FILTER}
  (f : FILTER) (name pluginId : string)
  (pluginVersionMajor pluginVersionMinor : Z)
  (natronVersionMajor natronVersionMinor natronVersionRevision : Z) : bool :=
  negb (natronVersionBelowMin (natronVersionMin f)
          natronVersionMajor natronVersionMinor natronVersionRevision) &&
  negb (natronVersionAboveMax (natronVersionMax f)
          natronVersionMajor natronVersionMinor natronVersionRevision) &&
  (list_empty (filters f) ||
   existsb (fun it => knobMatchSpec it name pluginId
                        pluginVersionMajor pluginVersionMinor) (filters f)).

(** No constraint of the list restricts the version of the plug-in. *)
Definition openVersions (l : list PluginMatch) : bool :=
  forallb (fun p => (pluginVersionMajorMin p =? -1) &&
                    (pluginVersionMajorMax p =? -1)) l.

(** No constraint of the alternatives restricts the minor version of the
    plug-in. *)
Definition openMinors (l : list KnobMatch) : bool :=
  forallb (fun it =>
             forallb (fun p => (pluginVersionMinorMin p =? -1) &&
                               (pluginVersionMinorMax p =? -1))
                     (plugin it)) l.

(** The lexicographic order on (major, minor, revision). *)
Definition lexLt (a b : Z * Z * Z) : Prop :=
  let '(aM, am, ar) := a in
  let '(bM, bm, br) := b in
  aM < bM \/ (aM = bM /\ (am < bm \/ (am = bm /\ ar < br))).

Definition lexLe (a b : Z * Z * Z) : Prop := lexLt a b \/ a = b.

(** No alternative of the list names a plug-in. *)
Definition anyPlugin (l : list KnobMatch) : bool :=
  forallb (fun it => list_empty (plugin it)) l.

(** No constraint of the alternatives restricts the version of the
    plug-in. *)
Definition allOpenVersions (l : list KnobMatch) : bool :=
  forallb (fun it => openVersions (plugin it)) l.

(** The matching that is left when both versions are unknown: identifiers
    and names only. *)
Definition knobMatchNoVersion (it : KnobMatch) (name pluginId : string)
  : bool :=
  (list_empty (plugin it) ||
   existsb (fun p => call (pluginFunc p) pluginId (pluginID p)) (plugin it))
  && call (func (filter it)) name (nameToMatch (filter it)).

(** The plug-in families that the name filters list. *)
Definition natronPlugin (pluginId : string) : bool :=
  startsWith pluginId "fr.inria." || startsWith pluginId "net.sf.openfx.".

(** The legacy names of the four channel checkboxes, with the identifier
    that replaces each. *)
Definition legacyProcessName {names : OfxNatronNames} (name : string)
  : option string :=
  if equalsStringCaseSensitive name "r" ||
     equalsStringCaseSensitive name "doRed"
  then Some kNatronOfxParamProcessR
  else if equalsStringCaseSensitive name "g" ||
          equalsStringCaseSensitive name "doGreen"
  then Some kNatronOfxParamProcessG
  else if equalsStringCaseSensitive name "b" ||
          equalsStringCaseSensitive name "doBlue"
  then Some kNatronOfxParamProcessB
  else if equalsStringCaseSensitive name "a" ||
          equalsStringCaseSensitive name "doAlpha"
  then Some kNatronOfxParamProcessA
  else None.

(** Every option pattern of the filters is compared without regard to
    letter case. *)
Definition optionsIgnoreCase (l : list KnobChoiceOptionFilter) : bool :=
  forallb (fun f =>
             forallb (fun o => stringFuncPtr_eqb (func o)
                                 fn_equalsStringCaseInsensitive)
                     (optionFilters f)) l.

(** The parameter names that some alternative of the option registry
    accepts. *)
Definition planeParameter (paramName : string) : bool :=
  equalsStringCaseSensitive paramName "outputChannels" ||
  endsWith paramName "channels".

Definition channelParameter (paramName : string) : bool :=
  startsWith paramName "maskChannel" ||
  equalsStringCaseSensitive paramName "premultChannel" ||
  equalsStringCaseSensitive paramName "channelU" ||
  equalsStringCaseSensitive paramName "channelV" ||
  equalsStringCaseSensitive paramName "outputR" ||
  equalsStringCaseSensitive paramName "outputG" ||
  equalsStringCaseSensitive paramName "outputB" ||
  equalsStringCaseSensitive paramName "outputA".

Definition writerParameter (paramName : string) : bool :=
  equalsStringCaseSensitive paramName "frameRange" ||
  equalsStringCaseSensitive paramName "bitDepth".

(** The legacy names of the planes, with the identifier that replaces
    each. *)
Definition legacyPlane {names : OfxNatronNames} (value : string)
  : option string :=
  if existsb (equalsStringCaseInsensitive value)
       [ "RGBA"; "RGB"; "Alpha"; "Color.RGBA"; "Color.RGB"; "Color.Alpha" ]
  then Some kNatronColorPlaneID
  else if equalsStringCaseInsensitive value "Backward.Motion"
  then Some (kNatronBackwardMotionVectorsPlaneID +++ "." +++
             kNatronMotionComponentsLabel)
  else if equalsStringCaseInsensitive value "Forward.Motion"
  then Some (kNatronForwardMotionVectorsPlaneID +++ "." +++
             kNatronMotionComponentsLabel)
  else if equalsStringCaseInsensitive value "DisparityLeft.Disparity"
  then Some (kNatronDisparityLeftPlaneID +++ "." +++
             kNatronDisparityComponentsLabel)
  else if equalsStringCaseInsensitive value "DisparityRight.Disparity"
  then Some (kNatronDisparityRightPlaneID +++ "." +++
             kNatronDisparityComponentsLabel)
  else None.

(** The legacy names of the channels, with the identifier that replaces
    each, in the order of the channel filters. *)
Definition legacyChannel {names : OfxNatronNames} (value : string)
  : option string :=
  let among := existsb (equalsStringCaseInsensitive value) in
  if among [ "RGBA.R"; "UV.r"; "red"; "r" ]
  then Some (kNatronColorPlaneID +++ ".R")
  else if among [ "RGBA.G"; "UV.g"; "green"; "g" ]
  then Some (kNatronColorPlaneID +++ ".G")
  else if among [ "RGBA.B"; "UV.b"; "blue"; "b" ]
  then Some (kNatronColorPlaneID +++ ".B")
  else if among [ "RGBA.A"; "UV.a"; "alpha"; "a" ]
  then Some (kNatronColorPlaneID +++ ".A")
  else if among [ "A.r" ] then Some ("A." +++ kNatronColorPlaneID +++ ".R")
  else if among [ "A.g" ] then Some ("A." +++ kNatronColorPlaneID +++ ".G")
  else if among [ "A.b" ] then Some ("A." +++ kNatronColorPlaneID +++ ".b")
  else if among [ "A.a" ] then Some ("A." +++ kNatronColorPlaneID +++ ".A")
  else if among [ "B.r" ] then Some ("B." +++ kNatronColorPlaneID +++ ".R")
  else if among [ "B.g" ] then Some ("B." +++ kNatronColorPlaneID +++ ".G")
  else if among [ "B.b" ] then Some ("B." +++ kNatronColorPlaneID +++ ".B")
  else if among [ "B.a" ] then Some ("B." +++ kNatronColorPlaneID +++ ".A")
  else None.

(** A bound with its minor and revision opened, and with its revision
    opened. *)
Definition openMinor (b : NatronVersionMatch) : NatronVersionMatch :=
  mkNatronVersionMatch (vMajor b) (-1) (-1).

Definition openRev (b : NatronVersionMatch) : NatronVersionMatch :=
  mkNatronVersionMatch (vMajor b) (vMinor b) (-1).

(** A plug-in constraint with its two minor bounds opened. *)
Definition openPluginMinor (p : PluginMatch) : PluginMatch :=
  mkPluginMatch (pluginID p) (pluginVersionMajorMin p) (-1)
    (pluginVersionMajorMax p) (-1) (pluginFunc p).

(** A -1 supplied by the caller in a version field disables the version
    tests of the filter on that field and on the finer ones:
    - with a host major of -1 both host tests pass;
    - with a host minor of -1 each host test is the test against the bound
      with minor and revision opened, at any minor and revision;
    - with a host revision of -1 each host test is the test against the
      bound with the revision opened, at any revision;
    - with a plug-in major of -1 both tests of every constraint pass;
    - with a plug-in minor of -1 each test of every constraint is the test
      against the constraint with its minor bounds opened, at any minor. *)
Definition sentinelDisablesTests {FILTER : Type} `{KnobFilterLike FILTER}
  (f : FILTER) : Prop :=
  forall major minor rev minor' rev' : Z,
    (natronVersionBelowMin (natronVersionMin f) (-1) minor rev = false /\
     natronVersionAboveMax (natronVersionMax f) (-1) minor rev = false) /\
    (natronVersionBelowMin (natronVersionMin f) major (-1) rev =
     natronVersionBelowMin (openMinor (natronVersionMin f)) major minor' rev' /\
     natronVersionAboveMax (natronVersionMax f) major (-1) rev =
     natronVersionAboveMax (openMinor (natronVersionMax f)) major minor' rev') /\
    (natronVersionBelowMin (natronVersionMin f) major minor (-1) =
     natronVersionBelowMin (openRev (natronVersionMin f)) major minor rev' /\
     natronVersionAboveMax (natronVersionMax f) major minor (-1) =
     natronVersionAboveMax (openRev (natronVersionMax f)) major minor rev') /\
    (forall it p, In it (filters f) -> In p (plugin it) ->
       (pluginVersionBelowMin p (-1) minor = false /\
        pluginVersionAboveMax p (-1) minor = false) /\
       (pluginVersionBelowMin p major (-1) =
        pluginVersionBelowMin (openPluginMinor p) major minor' /\
        pluginVersionAboveMax p major (-1) =
        pluginVersionAboveMax (openPluginMinor p) major minor')).

(** The bounds of a filter under which [sentinelDisablesTests] holds: no
    lower host bound, upper host bound and plug-in upper minor of -1 or
    more, no plug-in lower minor. *)
Definition sentinelTolerant {FILTER : Type} `{KnobFilterLike FILTER}
  (f : FILTER) : bool :=
  (vMajor (natronVersionMin f) =? -1) &&
  (-1 <=? vMinor (natronVersionMax f)) &&
  (-1 <=? vRev (natronVersionMax f)) &&
  forallb (fun it =>
             forallb (fun p => (pluginVersionMinorMin p =? -1) &&
                               (-1 <=? pluginVersionMinorMax p))
                     (plugin it)) (filters f).

(** A list of constraints on which the constraint loop cannot depend on
    their order: no version range, or at most one constraint. *)
Definition orderSafe (l : list PluginMatch) : bool :=
  openVersions l || Nat.leb (List.length l) 1.

(** The plug-in gate of the filter is a plain disjunction:
    - the gate of an alternative that lists plug-ins passes exactly when
      one of its constraints has its identifier matching and the version
      in range;
    - the filter matches exactly as the disjunction over its alternatives
      says, so an alternative whose gate passes and whose name pattern
      matches makes the filter match whatever the constraints and the
      alternatives before it did;
    - permuting the constraints of one alternative does not change the
      answer of the matcher. *)
Definition pluginGateIsDisjunction {FILTER : Type} `{KnobFilterLike FILTER}
  (f : FILTER) : Prop :=
  forall (name pluginId : string) (pM pm nM nm nr : Z),
    (forall it, In it (filters f) -> plugin it <> [] ->
       (scanPlugins (plugin it) pluginId pM pm = LoopDone true <->
        pluginGateSpec (plugin it) pluginId pM pm = true)) /\
    matchKnobFilterInternal f name pluginId pM pm nM nm nr =
    matchKnobFilterSpec f name pluginId pM pm nM nm nr /\
    (forall it, In it (filters f) ->
       natronVersionBelowMin (natronVersionMin f) nM nm nr = false ->
       natronVersionAboveMax (natronVersionMax f) nM nm nr = false ->
       knobMatchSpec it name pluginId pM pm = true ->
       matchKnobFilterInternal f name pluginId pM pm nM nm nr = true) /\
    (forall a1 it a2 ps',
       filters f = a1 ++ it :: a2 ->
       Permutation (plugin it) ps' ->
       matchKnobFilterInternal
         (set_filters (a1 ++ mkKnobMatch ps' (filter it) :: a2) f)
         name pluginId pM pm nM nm nr =
       matchKnobFilterInternal f name pluginId pM pm nM nm nr).

(** ** Filters outside the registries, for the examples *)

(** One alternative whose first constraint carries a version range and
    whose second one accepts every plug-in of the same family. *)
Definition shuffleThenFamily : KnobNameFilter :=
  build KnobNameFilter_default
    [ setNameReplacement "new";
      addKnobFilter
        (build (newKnobMatch "old" fn_equalsStringCaseSensitive)
           [ addPluginMatch "net.sf.openfx.ShufflePlugin" 2 (-1) (-1) (-1);
             addPluginMatchWith "net.sf.openfx." fn_startsWith ]) ].

(** The same filter with the two constraints exchanged. *)
Definition familyThenShuffle : KnobNameFilter :=
  build KnobNameFilter_default
    [ setNameReplacement "new";
      addKnobFilter
        (build (newKnobMatch "old" fn_equalsStringCaseSensitive)
           [ addPluginMatchWith "net.sf.openfx." fn_startsWith;
             addPluginMatch "net.sf.openfx.ShufflePlugin" 2 (-1) (-1) (-1) ]) ].

(** Two alternatives: a versioned one, then one open to every plug-in. *)
Definition shuffleThenAnyPlugin : KnobNameFilter :=
  build KnobNameFilter_default
    [ setNameReplacement "new";
      addKnobFilter
        (build (newKnobMatch "outputR" fn_equalsStringCaseSensitive)
           [ addPluginMatch "net.sf.openfx.ShufflePlugin" 2 (-1) (-1) (-1) ]);
      addKnobFilter (newKnobMatch "old" fn_equalsStringCaseSensitive) ].

(** A filter that applies from Natron 2.0 on, to every name and plug-in. *)
Definition sinceNatron_2_0 : KnobNameFilter :=
  build KnobNameFilter_default
    [ setNameReplacement "new";
      setNatronVersionMin 2 0 (-1) ].

(** The same filter with the minor bound left open. *)
Definition sinceNatron_2 : KnobNameFilter :=
  build KnobNameFilter_default
    [ setNameReplacement "new";
      setNatronVersionMin 2 (-1) (-1) ].

(** A filter for one plug-in from its version 2.1 on. *)
Definition sinceShuffle_2_1 : KnobNameFilter :=
  build KnobNameFilter_default
    [ setNameReplacement "new";
      addKnobFilter
        (build (newKnobMatch "old" fn_equalsStringCaseSensitive)
           [ addPluginMatch "net.sf.openfx.ShufflePlugin" 2 1 (-1) (-1) ]) ].

(** Two name filters that both match the name ["old"]. *)
Definition overlappingNameFilters : list KnobNameFilter :=
  [ build KnobNameFilter_default
      [ setNameReplacement "first";
        addKnobFilter (newKnobMatch "old" fn_equalsStringCaseSensitive) ];
    build KnobNameFilter_default
      [ setNameReplacement "second";
        addKnobFilter (newKnobMatch "ol" fn_startsWith) ] ].

(** ** Strings *)

Lemma iequals_upcase (a b : string) :
  iequals a b = true <-> upcase a = upcase b.
Proof.
  revert b; induction a as [|x a IH]; intros [|y b]; simpl;
    try (split; [reflexivity | reflexivity]);
    try (split; discriminate).
  rewrite andb_true_iff, Ascii.eqb_eq, IH. split.
  - intros [-> ->]; reflexivity.
  - intros E; injection E; auto.
Qed.

Lemma iequals_congr_l (a a' b : string) :
  upcase a = upcase a' -> iequals a b = iequals a' b.
Proof.
  intros E.
  destruct (iequals a b) eqn:Ha, (iequals a' b) eqn:Ha'; try reflexivity.
  - apply iequals_upcase in Ha. rewrite E in Ha.
    apply iequals_upcase in Ha. congruence.
  - apply iequals_upcase in Ha'. rewrite <- E in Ha'.
    apply iequals_upcase in Ha'. congruence.
Qed.

Lemma substr0_append (p s : string) :
  substr0 (String.length p) (String.append p s) = p.
Proof. induction p as [|c p IH]; simpl; [reflexivity | now rewrite IH]. Qed.

Lemma startsWith_append (p s : string) :
  startsWith (String.append p s) p = true.
Proof. unfold startsWith. rewrite substr0_append. apply String.eqb_refl. Qed.

(** ** Version gates *)

Ltac unfold_gates :=
  unfold natronVersionBelowMin, natronVersionAboveMax,
         pluginVersionBelowMin, pluginVersionAboveMax.

(** Turns comparisons on [Z] between hypotheses and goal into
    propositions and decides them. *)
Ltac z_bool :=
  repeat match goal with
         | |- context [?a =? ?b] => destruct (Z.eqb_spec a b)
         | |- context [?a <? ?b] => destruct (Z.ltb_spec a b)
         | |- context [?a >? ?b] =>
             rewrite (Z.gtb_ltb a b); destruct (Z.ltb_spec b a)
         end;
  simpl; try reflexivity; try lia.

Lemma natron_unknown_major (v : NatronVersionMatch) (minor rev : Z) :
  natronVersionBelowMin v (-1) minor rev = false /\
  natronVersionAboveMax v (-1) minor rev = false.
Proof. split; reflexivity. Qed.

Lemma plugin_unknown_major (p : PluginMatch) (minor : Z) :
  pluginVersionBelowMin p (-1) minor = false /\
  pluginVersionAboveMax p (-1) minor = false.
Proof. split; reflexivity. Qed.

(** Next to a known major, a minor of -1 is below every lower bound that
    constrains the minor at the same major. *)
Lemma natron_minor_sentinel_below_min (v : NatronVersionMatch) (rev : Z) :
  vMajor v <> -1 -> 0 <= vMinor v ->
  natronVersionBelowMin v (vMajor v) (-1) rev = true.
Proof. intros HM Hm. unfold_gates. z_bool. Qed.

Lemma plugin_minor_sentinel_below_min (p : PluginMatch) :
  pluginVersionMajorMin p <> -1 -> 0 <= pluginVersionMinorMin p ->
  pluginVersionBelowMin p (pluginVersionMajorMin p) (-1) = true.
Proof. intros HM Hm. unfold_gates. z_bool. Qed.

Lemma natronVersionAboveMax_open (v : NatronVersionMatch)
  (major minor rev : Z) :
  vMajor v = -1 -> natronVersionAboveMax v major minor rev = false.
Proof.
  intros E. unfold_gates. rewrite E. simpl.
  destruct (major =? -1); reflexivity.
Qed.

Lemma pluginVersionAboveMax_open (p : PluginMatch) (major minor : Z) :
  pluginVersionMajorMax p = -1 -> pluginVersionAboveMax p major minor = false.
Proof.
  intros E. unfold_gates. rewrite E. simpl.
  destruct (major =? -1); reflexivity.
Qed.

(** C8. A version range whose upper-bound major is unbounded (-1) rejects
    no candidate through its upper bound, whatever the minor and revision
    fields of the bound and of the candidate are; this holds for the host
    range of a filter and for the version range of a plug-in constraint. *)
Theorem open_upper_major_rejects_nothing :
  forall (boundMinor boundRev major minor rev : Z)
         (id : string) (majorMin minorMin boundMinorMax : Z)
         (cmp : stringFuncPtr),
    natronVersionAboveMax (mkNatronVersionMatch (-1) boundMinor boundRev)
      major minor rev = false /\
    pluginVersionAboveMax
      (mkPluginMatch id majorMin minorMin (-1) boundMinorMax cmp)
      major minor = false.
Proof.
  intros. split.
  - now apply natronVersionAboveMax_open.
  - now apply pluginVersionAboveMax_open.
Qed.

(** The same openness at the level of the matcher: with an open upper
    major, the result does not depend on the rest of the upper bound. *)
Lemma matchKnobFilterInternal_open_upper (f : KnobNameFilter)
  (name pluginId : string) (pM pm nM nm nr boundMinor boundRev : Z) :
  vMajor (nameVersionMax f) = -1 ->
  matchKnobFilterInternal f name pluginId pM pm nM nm nr =
  matchKnobFilterInternal (setNatronVersionMax (-1) boundMinor boundRev f)
    name pluginId pM pm nM nm nr.
Proof.
  intros E. unfold matchKnobFilterInternal. simpl.
  rewrite (natronVersionAboveMax_open _ nM nm nr E).
  rewrite (natronVersionAboveMax_open
             (mkNatronVersionMatch (-1) boundMinor boundRev) nM nm nr eq_refl).
  reflexivity.
Qed.

(** ** Unknown versions supplied by the caller *)

(** Against an upper bound whose fields are -1 or more, a minor of -1 next
    to a known major leaves the decision to the major alone. *)
Lemma natron_minor_sentinel_above_max (v : NatronVersionMatch)
  (major rev : Z) :
  -1 <= vMinor v ->
  natronVersionAboveMax v major (-1) rev =
  negb (major =? -1) && negb (vMajor v =? -1) && (major >? vMajor v).
Proof. intros Hm. unfold_gates. z_bool. Qed.

(** Against an upper bound whose revision is -1 or more, a revision of -1
    is never the reason of a rejection. *)
Lemma natron_rev_sentinel_above_max (v : NatronVersionMatch)
  (major minor : Z) :
  -1 <= vRev v ->
  natronVersionAboveMax v major minor (-1) =
  natronVersionAboveMax (mkNatronVersionMatch (vMajor v) (vMinor v) (-1))
    major minor (-1).
Proof. intros Hr. unfold_gates. simpl. z_bool. Qed.

Lemma plugin_minor_sentinel_above_max (p : PluginMatch) (major : Z) :
  -1 <= pluginVersionMinorMax p ->
  pluginVersionAboveMax p major (-1) =
  negb (major =? -1) && negb (pluginVersionMajorMax p =? -1) &&
  (major >? pluginVersionMajorMax p).
Proof. intros Hm. unfold_gates. z_bool. Qed.

(** With an unknown plug-in major the loop over the constraints never
    leaves the matcher, and it finds the first constraint whose identifier
    matches. *)
Lemma scanPlugins_unknown_major (l : list PluginMatch) (pluginId : string)
  (minor : Z) :
  scanPlugins l pluginId (-1) minor =
  LoopDone (existsb (fun p => call (pluginFunc p) pluginId (pluginID p)) l).
Proof.
  induction l as [|p l IH]; simpl; [reflexivity|].
  destruct (call (pluginFunc p) pluginId (pluginID p)); simpl;
    [reflexivity | exact IH].
Qed.

Lemma scanKnobMatches_unknown_major (l : list KnobMatch)
  (name pluginId : string) (minor minor' : Z) :
  scanKnobMatches l name pluginId (-1) minor =
  scanKnobMatches l name pluginId (-1) minor'.
Proof.
  induction l as [|it l IH]; simpl; [reflexivity|].
  rewrite !scanPlugins_unknown_major, IH. reflexivity.
Qed.

(** Outside the registries.  A filter with a lower host bound, which no
    entry of the registries has, refuses a host version of (2, -1, -1)
    through the minor field alone: the same filter with the minor bound
    left open accepts it.  In the same way a plug-in version of (2, -1)
    fails a constraint that starts at version 2.1 of the plug-in. *)
Lemma minor_sentinel_fails_lower_bound :
  natronVersionBelowMin (natronVersionMin sinceNatron_2_0) 2 (-1) (-1) = true /\
  matchKnobFilterInternal sinceNatron_2_0 "old" "net.sf.openfx.ShufflePlugin"
    (-1) (-1) 2 (-1) (-1) = false /\
  matchKnobFilterInternal sinceNatron_2 "old" "net.sf.openfx.ShufflePlugin"
    (-1) (-1) 2 (-1) (-1) = true /\
  filterKnobNameLoop [sinceNatron_2_0] "net.sf.openfx.ShufflePlugin"
    (-1) (-1) 2 (-1) (-1) "old" = (false, "old") /\
  matchKnobFilterInternal sinceShuffle_2_1 "old" "net.sf.openfx.ShufflePlugin"
    2 (-1) (-1) (-1) (-1) = false /\
  matchKnobFilterInternal sinceShuffle_2_1 "old" "net.sf.openfx.ShufflePlugin"
    2 1 (-1) (-1) (-1) = true.
Proof. repeat split; vm_compute; reflexivity. Qed.

(** For every filter, in or outside the registries.  A -1 in the major
    field of an axis (host major, plug-in major) switches off every version
    test of that axis, whatever the finer fields hold.  A -1 in a minor or
    revision field next to a known major is compared as the integer -1:
    against an upper bound whose fields are -1 or more it is never the
    reason of a rejection (a -1 minor leaves the decision to the majors, a
    -1 revision to the majors and minors). *)
Theorem unknown_major_disables_version_gates :
  forall (FILTER : Type) (F : KnobFilterLike FILTER) (f : FILTER)
         (p : PluginMatch) (l : list PluginMatch) (pluginId : string)
         (pM pm nM nm nr : Z),
    -1 <= vMinor (natronVersionMax f) ->
    -1 <= vRev (natronVersionMax f) ->
    -1 <= pluginVersionMinorMax p ->
    (natronVersionBelowMin (natronVersionMin f) (-1) nm nr = false /\
     natronVersionAboveMax (natronVersionMax f) (-1) nm nr = false) /\
    (pluginVersionBelowMin p (-1) pm = false /\
     pluginVersionAboveMax p (-1) pm = false /\
     scanPlugins l pluginId (-1) pm <> ReturnFalse) /\
    (natronVersionAboveMax (natronVersionMax f) nM (-1) nr =
       negb (nM =? -1) && negb (vMajor (natronVersionMax f) =? -1) &&
       (nM >? vMajor (natronVersionMax f)) /\
     natronVersionAboveMax (natronVersionMax f) nM nm (-1) =
       natronVersionAboveMax
         (mkNatronVersionMatch (vMajor (natronVersionMax f))
            (vMinor (natronVersionMax f)) (-1)) nM nm (-1) /\
     pluginVersionAboveMax p pM (-1) =
       negb (pM =? -1) && negb (pluginVersionMajorMax p =? -1) &&
       (pM >? pluginVersionMajorMax p)).
Proof.
  intros FILTER F f p l pluginId pM pm nM nm nr Hm Hr Hp.
  split; [split; reflexivity|].
  split.
  - split; [reflexivity|].
    split; [reflexivity|].
    rewrite scanPlugins_unknown_major. discriminate.
  - split; [now apply natron_minor_sentinel_above_max|].
    split; [now apply natron_rev_sentinel_above_max|].
    now apply plugin_minor_sentinel_above_max.
Qed.

(** With an unknown host major the matcher does not look at the host
    minor and revision; with an unknown plug-in major it does not look at
    the plug-in minor. *)
Lemma matchKnobFilterInternal_unknown_majors
  {FILTER : Type} `{KnobFilterLike FILTER} (f : FILTER)
  (name pluginId : string) (pM pm pm' nM nm nr nm' nr' : Z) :
  matchKnobFilterInternal f name pluginId pM pm (-1) nm nr =
  matchKnobFilterInternal f name pluginId pM pm (-1) nm' nr' /\
  matchKnobFilterInternal f name pluginId (-1) pm nM nm nr =
  matchKnobFilterInternal f name pluginId (-1) pm' nM nm nr.
Proof.
  unfold matchKnobFilterInternal. split.
  - reflexivity.
  - now rewrite (scanKnobMatches_unknown_major _ name pluginId pm pm').
Qed.

(** ** The plug-in gate against its specification *)

(** As long as the loop over the constraints does not leave the matcher,
    its flag is the disjunction of the specification. *)
Lemma scanPlugins_spec (l : list PluginMatch) (pluginId : string)
  (pM pm : Z) :
  scanPlugins l pluginId pM pm <> ReturnFalse ->
  scanPlugins l pluginId pM pm = LoopDone (pluginGateSpec l pluginId pM pm).
Proof.
  induction l as [|p l IH]; simpl; [reflexivity|].
  unfold pluginVersionInRange.
  destruct (call (pluginFunc p) pluginId (pluginID p)); simpl.
  - destruct (pluginVersionBelowMin p pM pm); simpl; [congruence|].
    destruct (pluginVersionAboveMax p pM pm); simpl; [congruence|].
    reflexivity.
  - exact IH.
Qed.

(** The loop leaves the matcher exactly when the first constraint whose
    identifier matches has its version range violated. *)
Lemma scanPlugins_ReturnFalse (l : list PluginMatch) (pluginId : string)
  (pM pm : Z) :
  scanPlugins l pluginId pM pm = ReturnFalse <->
  exists pre p post,
    l = pre ++ p :: post /\
    (forall q, In q pre -> call (pluginFunc q) pluginId (pluginID q) = false) /\
    call (pluginFunc p) pluginId (pluginID p) = true /\
    pluginVersionInRange p pM pm = false.
Proof.
  induction l as [|p l IH]; simpl.
  - split; [discriminate|]. intros (pre & q & post & E & _). now destruct pre.
  - destruct (call (pluginFunc p) pluginId (pluginID p)) eqn:Hid; simpl.
    + split.
      * intros Hr. exists [], p, l. repeat split; auto.
        { intros q []. }
        unfold pluginVersionInRange.
        destruct (pluginVersionBelowMin p pM pm); [reflexivity|].
        destruct (pluginVersionAboveMax p pM pm); [reflexivity|discriminate].
      * intros (pre & q & post & E & Hpre & Hq & Hv).
        destruct pre as [|x pre]; simpl in E; injection E as -> ->.
        -- unfold pluginVersionInRange in Hv.
           destruct (pluginVersionBelowMin q pM pm); [reflexivity|].
           destruct (pluginVersionAboveMax q pM pm); [reflexivity|discriminate].
        -- rewrite (Hpre x (or_introl eq_refl)) in Hid. discriminate.
    + rewrite IH. split.
      * intros (pre & q & post & -> & Hpre & Hq & Hv).
        exists (p :: pre), q, post. repeat split; auto.
        intros x [<-|Hx]; auto.
      * intros (pre & q & post & E & Hpre & Hq & Hv).
        destruct pre as [|x pre]; simpl in E; injection E as -> ->.
        -- congruence.
        -- exists pre, q, post. repeat split; auto.
           intros y Hy. apply Hpre. now right.
Qed.

(** When no alternative makes the constraint loop leave the matcher, the
    loop over the alternatives is the disjunction of the specification. *)
Lemma scanKnobMatches_spec (l : list KnobMatch) (name pluginId : string)
  (pM pm : Z) :
  (forall it, In it l -> scanPlugins (plugin it) pluginId pM pm <> ReturnFalse) ->
  scanKnobMatches l name pluginId pM pm =
  existsb (fun it => knobMatchSpec it name pluginId pM pm) l.
Proof.
  induction l as [|it l IH]; intros Hl; [reflexivity|].
  cbn [scanKnobMatches existsb].
  rewrite IH by (intros x Hx; apply Hl; now right).
  pose proof (Hl it (or_introl eq_refl)) as Hit.
  rewrite (scanPlugins_spec _ _ _ _ Hit).
  set (tail := existsb _ l).
  unfold knobMatchSpec.
  destruct (call (func (filter it)) name (nameToMatch (filter it)));
    destruct (plugin it) as [|p ps]; cbn [list_empty negb orb andb];
    try reflexivity;
    destruct (pluginGateSpec (p :: ps) pluginId pM pm); reflexivity.
Qed.

Lemma matchKnobFilterInternal_spec {FILTER : Type} `{KnobFilterLike FILTER}
  (f : FILTER) (name pluginId : string) (pM pm nM nm nr : Z) :
  (forall it, In it (filters f) ->
              scanPlugins (plugin it) pluginId pM pm <> ReturnFalse) ->
  matchKnobFilterInternal f name pluginId pM pm nM nm nr =
  matchKnobFilterSpec f name pluginId pM pm nM nm nr.
Proof.
  intros Hl. unfold matchKnobFilterInternal, matchKnobFilterSpec.
  destruct (natronVersionBelowMin _ _ _ _); simpl; [reflexivity|].
  destruct (natronVersionAboveMax _ _ _ _); simpl; [reflexivity|].
  rewrite <- (scanKnobMatches_spec _ _ _ _ _ Hl).
  destruct (filters f); reflexivity.
Qed.

(** Outside the registries.  On a filter that lists a versioned constraint
    ahead of another constraint or alternative, which no entry of the
    registries does, the matcher is not a plain disjunction: when a
    constraint matches the identifier and its version range fails, the
    matcher returns false.  With the constraint of a plug-in from its
    version 2 on listed before a constraint for its whole family, version
    1.0 of that plug-in is refused although the second constraint accepts
    it; exchanging the two constraints accepts it; and a later alternative
    that is open to every plug-in is not reached either. *)
Theorem version_mismatch_returns_false :
  scanPlugins
    [ mkPluginMatch "net.sf.openfx.ShufflePlugin" 2 (-1) (-1) (-1)
        fn_equalsStringCaseInsensitive;
      mkPluginMatch "net.sf.openfx." (-1) (-1) (-1) (-1) fn_startsWith ]
    "net.sf.openfx.ShufflePlugin" 1 0 = ReturnFalse /\
  pluginGateSpec
    [ mkPluginMatch "net.sf.openfx.ShufflePlugin" 2 (-1) (-1) (-1)
        fn_equalsStringCaseInsensitive;
      mkPluginMatch "net.sf.openfx." (-1) (-1) (-1) (-1) fn_startsWith ]
    "net.sf.openfx.ShufflePlugin" 1 0 = true /\
  matchKnobFilterInternal shuffleThenFamily "old"
    "net.sf.openfx.ShufflePlugin" 1 0 2 2 0 = false /\
  matchKnobFilterSpec shuffleThenFamily "old"
    "net.sf.openfx.ShufflePlugin" 1 0 2 2 0 = true /\
  matchKnobFilterInternal familyThenShuffle "old"
    "net.sf.openfx.ShufflePlugin" 1 0 2 2 0 = true /\
  matchKnobFilterInternal shuffleThenAnyPlugin "old"
    "net.sf.openfx.ShufflePlugin" 1 0 2 2 0 = false /\
  matchKnobFilterSpec shuffleThenAnyPlugin "old"
    "net.sf.openfx.ShufflePlugin" 1 0 2 2 0 = true /\
  filterKnobNameLoop [shuffleThenFamily] "net.sf.openfx.ShufflePlugin"
    1 0 2 2 0 "old" = (false, "old").
Proof. repeat split; vm_compute; reflexivity. Qed.

(** ** The two loops over a registry *)

Section Loops.

Variables (pluginId : string) (pM pm nM nm nr : Z).

(** The filter [f] accepts [name] in the context of the section. *)
Local Abbreviation accepts f name :=
  (matchKnobFilterInternal f name pluginId pM pm nM nm nr).

Lemma filterKnobNameLoop_skip (pre l : list KnobNameFilter) (name : string) :
  (forall g, In g pre -> accepts g name = false) ->
  filterKnobNameLoop (pre ++ l) pluginId pM pm nM nm nr name =
  filterKnobNameLoop l pluginId pM pm nM nm nr name.
Proof.
  induction pre as [|g pre IH]; intros Hpre; simpl; [reflexivity|].
  rewrite (Hpre g (or_introl eq_refl)). simpl.
  apply IH. intros x Hx. apply Hpre. now right.
Qed.

Lemma filterKnobNameLoop_first (pre post : list KnobNameFilter)
  (f : KnobNameFilter) (name : string) :
  (forall g, In g pre -> accepts g name = false) ->
  accepts f name = true ->
  filterKnobNameLoop (pre ++ f :: post) pluginId pM pm nM nm nr name =
  (true, replacement f).
Proof.
  intros Hpre Hf. rewrite filterKnobNameLoop_skip by exact Hpre.
  simpl. now rewrite Hf.
Qed.

(** A list with an accepting filter splits at its earliest one. *)
Lemma earliest_accepting (l : list KnobNameFilter) (name : string) :
  (exists g, In g l /\ accepts g name = true) ->
  exists pre f post,
    l = pre ++ f :: post /\
    (forall g, In g pre -> accepts g name = false) /\
    accepts f name = true.
Proof.
  induction l as [|x l IH]; intros (g & Hin & Hg); [destruct Hin|].
  destruct (accepts x name) eqn:Hx.
  - exists [], x, l. repeat split; auto. intros y [].
  - destruct Hin as [->|Hin]; [congruence|].
    destruct (IH (ex_intro _ g (conj Hin Hg)))
      as (pre & f & post & -> & Hpre & Hf).
    exists (x :: pre), f, post. repeat split; auto.
    intros y [<-|Hy]; auto.
Qed.

Lemma filterKnobNameLoop_cases (l : list KnobNameFilter) (name : string) :
  (exists f, In f l /\ accepts f name = true /\
             filterKnobNameLoop l pluginId pM pm nM nm nr name =
             (true, replacement f)) \/
  ((forall f, In f l -> accepts f name = false) /\
   filterKnobNameLoop l pluginId pM pm nM nm nr name = (false, name)).
Proof.
  induction l as [|x l IH]; simpl.
  - right. split; [intros f []|reflexivity].
  - destruct (accepts x name) eqn:Hx; simpl.
    + left. exists x. auto.
    + destruct IH as [(f & Hin & Hf & E)|(Hall & E)].
      * left. exists f. auto.
      * right. split; [|exact E]. intros f [<-|Hin]; auto.
Qed.

(** The scan of the option patterns is a disjunction. *)
Lemma scanOptionFilters_existsb (l : list FilterMatcher) (value : string) :
  scanOptionFilters l value =
  existsb (fun it => call (func it) value (nameToMatch it)) l.
Proof.
  induction l as [|o l IH]; simpl; [reflexivity|].
  rewrite IH. now destruct (call (func o) value (nameToMatch o)).
Qed.

Lemma scanOptionFilters_first (o1 o2 : list FilterMatcher)
  (o : FilterMatcher) (value : string) :
  call (func o) value (nameToMatch o) = true ->
  scanOptionFilters (o1 ++ o :: o2) value = true.
Proof.
  intros Ho. rewrite scanOptionFilters_existsb, existsb_app. simpl.
  rewrite Ho. apply orb_true_r.
Qed.

Lemma scanOptionFilters_none (l : list FilterMatcher) (value : string) :
  (forall o, In o l -> call (func o) value (nameToMatch o) = false) ->
  scanOptionFilters l value = false.
Proof.
  intros Hl. rewrite scanOptionFilters_existsb.
  destruct (existsb _ l) eqn:E; [|reflexivity].
  apply existsb_exists in E. destruct E as (o & Hin & Ho).
  rewrite (Hl o Hin) in Ho. discriminate.
Qed.

(** The option filter [f] rewrites [value] for the parameter [paramName]:
    its gates accept the parameter and one of its patterns matches. *)
Local Abbreviation rewrites f paramName value :=
  (accepts f paramName && scanOptionFilters (optionFilters f) value).

Lemma filterKnobChoiceOptionLoop_cons (f : KnobChoiceOptionFilter)
  (l : list KnobChoiceOptionFilter) (paramName value : string) :
  filterKnobChoiceOptionLoop (f :: l) pluginId pM pm nM nm nr paramName value =
  if rewrites f paramName value then (true, replacement f)
  else filterKnobChoiceOptionLoop l pluginId pM pm nM nm nr paramName value.
Proof.
  simpl. destruct (accepts f paramName); simpl; [|reflexivity].
  destruct (scanOptionFilters (optionFilters f) value); reflexivity.
Qed.

Lemma filterKnobChoiceOptionLoop_skip (pre l : list KnobChoiceOptionFilter)
  (paramName value : string) :
  (forall g, In g pre -> rewrites g paramName value = false) ->
  filterKnobChoiceOptionLoop (pre ++ l) pluginId pM pm nM nm nr
    paramName value =
  filterKnobChoiceOptionLoop l pluginId pM pm nM nm nr paramName value.
Proof.
  induction pre as [|g pre IH]; intros Hpre; [reflexivity|].
  rewrite <- app_comm_cons, filterKnobChoiceOptionLoop_cons.
  rewrite (Hpre g (or_introl eq_refl)).
  apply IH. intros x Hx. apply Hpre. now right.
Qed.

Lemma filterKnobChoiceOptionLoop_cases (l : list KnobChoiceOptionFilter)
  (paramName value : string) :
  (exists f, In f l /\ rewrites f paramName value = true /\
             filterKnobChoiceOptionLoop l pluginId pM pm nM nm nr
               paramName value = (true, replacement f)) \/
  ((forall f, In f l -> rewrites f paramName value = false) /\
   filterKnobChoiceOptionLoop l pluginId pM pm nM nm nr paramName value =
   (false, value)).
Proof.
  induction l as [|x l IH].
  - right. split; [intros f []|reflexivity].
  - rewrite filterKnobChoiceOptionLoop_cons.
    destruct (rewrites x paramName value) eqn:Hx.
    + left. exists x. repeat split; auto. now left.
    + destruct IH as [(f & Hin & Hf & E)|(Hall & E)].
      * left. exists f. repeat split; auto. now right.
      * right. split; [|exact E]. intros f [<-|Hin]; auto.
Qed.

End Loops.

(** ** The lookups on the registries *)

(** C3. [filterKnobNameCompat] walks the name registry in registration
    order and the first match wins: when some filter of the registry
    accepts the input, the registry splits at its earliest accepting
    filter, the lookup returns true, and the name it leaves is the
    replacement of that filter, whatever the filters registered after it
    would do. *)
Theorem filterKnobNameCompat_first_match_wins :
  forall (names : OfxNatronNames) (pluginId : string)
         (pM pm nM nm nr : Z) (name : string),
    (exists g, In g knobNameFilters /\
               matchKnobFilterInternal g name pluginId pM pm nM nm nr = true) ->
    exists pre f post,
      knobNameFilters = pre ++ f :: post /\
      (forall g, In g pre ->
                 matchKnobFilterInternal g name pluginId pM pm nM nm nr = false) /\
      matchKnobFilterInternal f name pluginId pM pm nM nm nr = true /\
      filterKnobNameCompat pluginId pM pm nM nm nr name = (true, replacement f).
Proof.
  intros names pluginId pM pm nM nm nr name Hex.
  destruct (earliest_accepting pluginId pM pm nM nm nr _ name Hex)
    as (pre & f & post & E & Hpre & Hf).
  exists pre, f, post. repeat split; auto.
  unfold filterKnobNameCompat. rewrite E.
  now apply filterKnobNameLoop_first.
Qed.

(** The same on a list in which two filters accept the same name: only
    the replacement of the first one is produced. *)
Example overlapping_filters_first_wins :
  matchKnobFilterInternal (nth 0 overlappingNameFilters KnobNameFilter_default)
    "old" "net.sf.openfx.Foo" 1 0 2 0 0 = true /\
  matchKnobFilterInternal (nth 1 overlappingNameFilters KnobNameFilter_default)
    "old" "net.sf.openfx.Foo" 1 0 2 0 0 = true /\
  filterKnobNameLoop overlappingNameFilters "net.sf.openfx.Foo" 1 0 2 0 0 "old"
  = (true, "first").
Proof. repeat split; vm_compute; reflexivity. Qed.

(** C4. In [filterKnobChoiceOptionCompat], at the first filter that is
    reached (no earlier filter rewrites) and whose gates accept the
    parameter name: the option patterns are scanned in order, the first
    one that matches the value makes the lookup return true with the
    replacement of the filter; and when none matches, the lookup goes on
    with the filters registered after it. *)
Theorem filterKnobChoiceOptionCompat_scan_then_continue :
  forall (names : OfxNatronNames) (pluginId : string)
         (pM pm nM nm nr : Z) (paramName value : string)
         (pre post : list KnobChoiceOptionFilter) (f : KnobChoiceOptionFilter),
    knobChoiceOptionFilters = pre ++ f :: post ->
    (forall g, In g pre ->
       matchKnobFilterInternal g paramName pluginId pM pm nM nm nr &&
       scanOptionFilters (optionFilters g) value = false) ->
    matchKnobFilterInternal f paramName pluginId pM pm nM nm nr = true ->
    (forall o1 o o2,
       optionFilters f = o1 ++ o :: o2 ->
       (forall x, In x o1 -> call (func x) value (nameToMatch x) = false) ->
       call (func o) value (nameToMatch o) = true ->
       filterKnobChoiceOptionCompat pluginId pM pm nM nm nr paramName value =
       (true, replacement f)) /\
    ((forall o, In o (optionFilters f) ->
                call (func o) value (nameToMatch o) = false) ->
     filterKnobChoiceOptionCompat pluginId pM pm nM nm nr paramName value =
     filterKnobChoiceOptionLoop post pluginId pM pm nM nm nr paramName value).
Proof.
  intros names pluginId pM pm nM nm nr paramName value pre post f E Hpre Hf.
  unfold filterKnobChoiceOptionCompat. rewrite E.
  rewrite filterKnobChoiceOptionLoop_skip by exact Hpre.
  rewrite filterKnobChoiceOptionLoop_cons, Hf. simpl. split.
  - intros o1 o o2 Eo _ Ho. rewrite Eo.
    now rewrite (scanOptionFilters_first o1 o2 o value Ho).
  - intros Hnone. now rewrite (scanOptionFilters_none _ value Hnone).
Qed.

(** C5. Each lookup either returns true with the replacement of a filter
    of its registry that accepts the input, or returns false with the
    string it was given; and when no filter of the registry has its gates
    satisfied, the result is false with the string unchanged. *)
Theorem lookups_rewrite_or_leave :
  forall (names : OfxNatronNames) (pluginId : string)
         (pM pm nM nm nr : Z) (paramName name : string),
    ((exists f, In f knobNameFilters /\
                matchKnobFilterInternal f name pluginId pM pm nM nm nr = true /\
                filterKnobNameCompat pluginId pM pm nM nm nr name =
                (true, replacement f)) \/
     ((forall f, In f knobNameFilters ->
                 matchKnobFilterInternal f name pluginId pM pm nM nm nr = false) /\
      filterKnobNameCompat pluginId pM pm nM nm nr name = (false, name))) /\
    ((exists f, In f knobChoiceOptionFilters /\
                matchKnobFilterInternal f paramName pluginId pM pm nM nm nr = true /\
                scanOptionFilters (optionFilters f) name = true /\
                filterKnobChoiceOptionCompat pluginId pM pm nM nm nr
                  paramName name = (true, replacement f)) \/
     filterKnobChoiceOptionCompat pluginId pM pm nM nm nr paramName name =
     (false, name)) /\
    ((forall f, In f knobNameFilters ->
                matchKnobFilterInternal f name pluginId pM pm nM nm nr = false) ->
     filterKnobNameCompat pluginId pM pm nM nm nr name = (false, name)) /\
    ((forall f, In f knobChoiceOptionFilters ->
                matchKnobFilterInternal f paramName pluginId pM pm nM nm nr = false) ->
     filterKnobChoiceOptionCompat pluginId pM pm nM nm nr paramName name =
     (false, name)).
Proof.
  intros names pluginId pM pm nM nm nr paramName name.
  unfold filterKnobNameCompat, filterKnobChoiceOptionCompat.
  pose proof (filterKnobNameLoop_cases pluginId pM pm nM nm nr
                knobNameFilters name) as HN.
  pose proof (filterKnobChoiceOptionLoop_cases pluginId pM pm nM nm nr
                knobChoiceOptionFilters paramName name) as HO.
  split; [exact HN|]. split; [|split].
  - destruct HO as [(f & Hin & Hf & E)|(_ & E)]; [left|right; exact E].
    apply andb_true_iff in Hf. destruct Hf as (Hg & Hs).
    exists f. auto.
  - intros Hnone. destruct HN as [(f & Hin & Hf & _)|(_ & E)]; [|exact E].
    rewrite (Hnone f Hin) in Hf. discriminate.
  - intros Hnone. destruct HO as [(f & Hin & Hf & _)|(_ & E)]; [|exact E].
    rewrite (Hnone f Hin) in Hf. discriminate.
Qed.

(** C7. With plug-in ["net.sf.openfx.Foo"] 1.0 and the name ["r"], the
    lookup at host version 2.2.99, the upper edge of the gate, returns true
    and leaves the name of the red process parameter; at host version 2.3.0
    it returns false and leaves ["r"]. *)
Theorem filterKnobNameCompat_r_at_gate_edge :
  forall names : OfxNatronNames,
    filterKnobNameCompat "net.sf.openfx.Foo" 1 0 2 2 99 "r" =
    (true, kNatronOfxParamProcessR) /\
    filterKnobNameCompat "net.sf.openfx.Foo" 1 0 2 3 0 "r" = (false, "r").
Proof. intros names. split; vm_compute; reflexivity. Qed.

(** ** The shape of the registry entries *)

Lemma natronVersionBelowMin_open (v : NatronVersionMatch)
  (major minor rev : Z) :
  vMajor v = -1 -> natronVersionBelowMin v major minor rev = false.
Proof.
  intros E. unfold_gates. rewrite E. simpl.
  destruct (major =? -1); reflexivity.
Qed.

(** The gate "up to Natron 2.2.99". *)
Lemma natronVersionAboveMax_2_2_99 (major minor rev : Z) :
  upTo_2_2_99 major minor rev <->
  natronVersionAboveMax (mkNatronVersionMatch 2 2 99) major minor rev = false.
Proof.
  unfold upTo_2_2_99, natronVersionAboveMax. simpl.
  rewrite !Z.gtb_ltb.
  destruct (Z.eqb_spec major (-1)), (Z.ltb_spec 2 major),
    (Z.eqb_spec major 2), (Z.ltb_spec 2 minor), (Z.eqb_spec minor 2),
    (Z.ltb_spec 99 rev); simpl; split; intros Hgate;
    try reflexivity; try discriminate; lia.
Qed.

(** Adding option patterns touches the list of patterns only. *)
Lemma addOptionFilters_fold (options : list string) (cmp : stringFuncPtr)
  (f : KnobChoiceOptionFilter) :
  build f (map (fun o => addOptionFilter o cmp) options) =
  mkKnobChoiceOptionFilter (choiceFilters f)
    (optionFilters f ++ map (fun o => mkFilterMatcher o cmp) options)
    (choiceReplacement f) (choiceVersionMin f) (choiceVersionMax f).
Proof.
  unfold build. revert f.
  induction options as [|o options IH]; intros f; simpl.
  - rewrite app_nil_r. now destruct f.
  - rewrite IH. unfold addOptionFilter. simpl.
    now rewrite <- app_assoc.
Qed.

Lemma build_app {A : Type} (init : A) (s1 s2 : list (A -> A)) :
  build init (s1 ++ s2) = build (build init s1) s2.
Proof. unfold build. apply fold_left_app. Qed.

Section Shapes.

Context {names : OfxNatronNames}.

(** Every channel filter has the alternatives and the host range of
    [channelsFilterBase], its own patterns and its own replacement. *)
Lemma channelFilter_shape (options : list string) (repl : string) :
  channelFilter options repl =
  mkKnobChoiceOptionFilter (choiceFilters channelsFilterBase)
    (map (fun o => mkFilterMatcher o fn_equalsStringCaseInsensitive) options)
    repl NatronVersionMatch_default (mkNatronVersionMatch 2 2 99).
Proof.
  unfold channelFilter. rewrite build_app, addOptionFilters_fold.
  reflexivity.
Qed.

Lemma planeFilter_shape (repl : string) (options : list string) :
  planeFilter repl options =
  mkKnobChoiceOptionFilter
    [ newKnobMatch "outputChannels" fn_equalsStringCaseSensitive;
      newKnobMatch "channels" fn_endsWith ]
    (map (fun o => mkFilterMatcher o fn_equalsStringCaseInsensitive) options)
    repl NatronVersionMatch_default (mkNatronVersionMatch 2 2 99).
Proof.
  unfold planeFilter. rewrite build_app, addOptionFilters_fold.
  reflexivity.
Qed.

(** The gates of a channel filter accept every parameter whose name
    starts with ["maskChannel"], for every plug-in, up to Natron 2.2.99. *)
Lemma channelFilter_accepts_maskChannel (options : list string)
  (repl pluginId suffix : string) (pM pm nM nm nr : Z) :
  upTo_2_2_99 nM nm nr ->
  matchKnobFilterInternal (channelFilter options repl)
    (String.append "maskChannel" suffix) pluginId pM pm nM nm nr = true.
Proof.
  intros Hv. rewrite channelFilter_shape.
  unfold matchKnobFilterInternal.
  cbn [natronVersionMin natronVersionMax filters KnobChoiceOptionFilter_like
       choiceVersionMin choiceVersionMax choiceFilters].
  rewrite natronVersionBelowMin_open by reflexivity.
  rewrite (proj1 (natronVersionAboveMax_2_2_99 nM nm nr) Hv).
  reflexivity.
Qed.

(** A name that satisfies the pattern of no alternative is refused,
    whatever the plug-in constraints decide. *)
Lemma scanKnobMatches_no_name (l : list KnobMatch) (name pluginId : string)
  (pM pm : Z) :
  (forall it, In it l ->
              call (func (filter it)) name (nameToMatch (filter it)) = false) ->
  scanKnobMatches l name pluginId pM pm = false.
Proof.
  induction l as [|it l IH]; intros Hl; [reflexivity|].
  cbn [scanKnobMatches].
  rewrite (Hl it (or_introl eq_refl)).
  rewrite IH by (intros x Hx; apply Hl; now right).
  destruct (negb (list_empty (plugin it))); [|reflexivity].
  destruct (scanPlugins (plugin it) pluginId pM pm) as [|[]]; reflexivity.
Qed.

Lemma matchKnobFilterInternal_no_name {FILTER : Type} `{KnobFilterLike FILTER}
  (f : FILTER) (name pluginId : string) (pM pm nM nm nr : Z) :
  filters f <> [] ->
  (forall it, In it (filters f) ->
              call (func (filter it)) name (nameToMatch (filter it)) = false) ->
  matchKnobFilterInternal f name pluginId pM pm nM nm nr = false.
Proof.
  intros Hne Hl. unfold matchKnobFilterInternal.
  destruct (natronVersionBelowMin _ _ _ _); [reflexivity|].
  destruct (natronVersionAboveMax _ _ _ _); [reflexivity|].
  rewrite (scanKnobMatches_no_name (filters f) name pluginId pM pm Hl).
  destruct (filters f); [congruence|reflexivity].
Qed.

(** For the parameter ["channels"] and the value ["red"] no filter of the
    option registry rewrites, whatever the plug-in and the versions. *)
Lemma channels_red_not_rewritten (pluginId : string) (pM pm nM nm nr : Z)
  (g : KnobChoiceOptionFilter) :
  In g knobChoiceOptionFilters ->
  matchKnobFilterInternal g "channels" pluginId pM pm nM nm nr &&
  scanOptionFilters (optionFilters g) "red" = false.
Proof.
  intros Hin. unfold knobChoiceOptionFilters in Hin.
  simpl in Hin.
  repeat (destruct Hin as [<-|Hin]);
    try contradiction;
    try (rewrite planeFilter_shape; apply andb_false_r);
    apply andb_false_intro1;
    try rewrite channelFilter_shape;
    (apply matchKnobFilterInternal_no_name;
     [ discriminate
     | intros it Hit; vm_compute in Hit;
       repeat (destruct Hit as [<-|Hit]); try contradiction; reflexivity ]).
Qed.

End Shapes.

(** C6, counterexample. For the parameter ["channels"] and the value
    ["red"], at host version 2.2.0, the lookup returns false and leaves
    the value: the plane filters accept the parameter but none of their
    patterns is ["red"], and no alternative of the channel filters accepts
    the parameter name ["channels"]. *)
Lemma channels_red_is_left_alone :
  @filterKnobChoiceOptionCompat sampleNames
    "net.sf.openfx.Foo" 1 0 2 2 0 "channels" "red" = (false, "red") /\
  matchKnobFilterInternal
    (channelFilter [ "RGBA.R"; "UV.r"; "red"; "r" ]
       "uk.co.thefoundry.OfxImagePlaneColour.R")
    "channels" "net.sf.openfx.Foo" 1 0 2 2 0 = false.
Proof. split; vm_compute; reflexivity. Qed.

(** C6, amended. The value ["red"] is rewritten to the color plane
    identifier followed by [".R"] for the parameters that the channel
    filters gate on: for every parameter whose name starts with
    ["maskChannel"], every plug-in and every host version up to 2.2.99 (or
    unknown), the lookup returns true with that identifier.  For the
    parameter ["channels"] the value ["red"] is never rewritten. *)
Theorem maskChannel_red_becomes_color_R :
  forall (names : OfxNatronNames) (pluginId : string)
         (pM pm nM nm nr : Z) (suffix : string),
    upTo_2_2_99 nM nm nr ->
    filterKnobChoiceOptionCompat pluginId pM pm nM nm nr
      (String.append "maskChannel" suffix) "red" =
    (true, String.append kNatronColorPlaneID ".R") /\
    filterKnobChoiceOptionCompat pluginId pM pm nM nm nr "channels" "red" =
    (false, "red").
Proof.
  intros names pluginId pM pm nM nm nr suffix Hv. split.
  - unfold filterKnobChoiceOptionCompat, knobChoiceOptionFilters.
    match goal with
    | |- filterKnobChoiceOptionLoop (?a :: ?b :: ?c :: ?d :: ?e :: ?l)
           _ _ _ _ _ _ _ _ = _ =>
        change (a :: b :: c :: d :: e :: l) with ([a; b; c; d; e] ++ l)
    end.
    rewrite filterKnobChoiceOptionLoop_skip.
    + rewrite filterKnobChoiceOptionLoop_cons.
      rewrite channelFilter_accepts_maskChannel by exact Hv.
      rewrite channelFilter_shape. reflexivity.
    + intros g Hin. simpl in Hin.
      repeat (destruct Hin as [<-|Hin]); try contradiction;
        rewrite planeFilter_shape; apply andb_false_r.
  - unfold filterKnobChoiceOptionCompat.
    destruct (filterKnobChoiceOptionLoop_cases pluginId pM pm nM nm nr
                knobChoiceOptionFilters "channels" "red")
      as [(f & Hin & Hf & _)|(_ & E)]; [|exact E].
    rewrite (channels_red_not_rewritten pluginId pM pm nM nm nr f Hin) in Hf.
    discriminate.
Qed.

(** ** The assertions *)

Lemma str_empty_append_r (a b : string) :
  str_empty b = false -> str_empty (String.append a b) = false.
Proof. destruct a; simpl; auto. Qed.

(** C9. When the five identifiers of [ofxNatron.h] that are used alone as
    a replacement are not empty, every filter of both registries has a
    non-empty replacement and a non-empty list of alternatives, and every
    option filter has a non-empty list of option patterns: the conditions
    of the assertions of the two lookups and of [matchKnobFilterInternal]
    hold on every entry. *)
Theorem registry_assertions_hold :
  forall names : OfxNatronNames,
    str_empty kNatronOfxParamProcessR = false ->
    str_empty kNatronOfxParamProcessG = false ->
    str_empty kNatronOfxParamProcessB = false ->
    str_empty kNatronOfxParamProcessA = false ->
    str_empty kNatronColorPlaneID = false ->
    Forall (fun f : KnobNameFilter =>
              assertReplacement f = true /\
              list_empty (filters f) = false) knobNameFilters /\
    Forall (fun f : KnobChoiceOptionFilter =>
              assertReplacement f = true /\
              assertOptionFilters f = true /\
              list_empty (filters f) = false) knobChoiceOptionFilters.
Proof.
  intros names HR HG HB HA HC.
  unfold assertReplacement, assertOptionFilters. split.
  - unfold knobNameFilters.
    repeat constructor; simpl; now rewrite ?HR, ?HG, ?HB, ?HA.
  - unfold knobChoiceOptionFilters.
    repeat (apply Forall_cons || apply Forall_nil);
      rewrite ?planeFilter_shape, ?channelFilter_shape;
      (split; [|split; reflexivity]);
      cbn [replacement KnobChoiceOptionFilter_like choiceReplacement];
      apply negb_true_iff;
      solve [ exact HC
            | apply str_empty_append_r; reflexivity
            | reflexivity ].
Qed.

(** ** Letter case of the plug-in identifier *)

Lemma stringFuncPtr_eqb_eq (f g : stringFuncPtr) :
  stringFuncPtr_eqb f g = true -> f = g.
Proof. destruct f, g; simpl; intros E; congruence. Qed.

Section LetterCase.

Variables pluginId pluginId' : string.
Hypothesis same_letters : upcase pluginId = upcase pluginId'.

Lemma scanPlugins_letter_case (l : list PluginMatch) (pM pm : Z) :
  forallb (fun p => stringFuncPtr_eqb (pluginFunc p)
                      fn_equalsStringCaseInsensitive) l = true ->
  scanPlugins l pluginId pM pm = scanPlugins l pluginId' pM pm.
Proof.
  induction l as [|p l IH]; simpl; [reflexivity|].
  intros Hl. apply andb_true_iff in Hl. destruct Hl as (Hp & Hl).
  apply stringFuncPtr_eqb_eq in Hp. rewrite Hp. simpl.
  unfold equalsStringCaseInsensitive.
  rewrite (iequals_congr_l pluginId pluginId' (pluginID p) same_letters).
  now rewrite (IH Hl).
Qed.

Lemma scanKnobMatches_letter_case (l : list KnobMatch) (name : string)
  (pM pm : Z) :
  defaultPluginComparison l = true ->
  scanKnobMatches l name pluginId pM pm =
  scanKnobMatches l name pluginId' pM pm.
Proof.
  unfold defaultPluginComparison.
  induction l as [|it l IH]; simpl; [reflexivity|].
  intros Hl. apply andb_true_iff in Hl. destruct Hl as (Hit & Hl).
  now rewrite (scanPlugins_letter_case _ pM pm Hit), (IH Hl).
Qed.

End LetterCase.

(** C10. A plug-in constraint registered without overriding the comparison
    of [addPluginMatch] compares the plug-in identifier without regard to
    letter case: for a filter all of whose plug-in constraints keep that
    comparison, two plug-in identifiers that differ in the case of their
    letters only get the same answer from the matcher, for every name and
    all versions. *)
Theorem plugin_id_letter_case_ignored :
  forall (FILTER : Type) (F : KnobFilterLike FILTER) (f : FILTER)
         (name pluginId pluginId' : string) (pM pm nM nm nr : Z),
    defaultPluginComparison (filters f) = true ->
    upcase pluginId = upcase pluginId' ->
    matchKnobFilterInternal f name pluginId pM pm nM nm nr =
    matchKnobFilterInternal f name pluginId' pM pm nM nm nr.
Proof.
  intros FILTER F f name pluginId pluginId' pM pm nM nm nr Hd Hu.
  unfold matchKnobFilterInternal.
  now rewrite (scanKnobMatches_letter_case pluginId pluginId' Hu _ name
                 pM pm Hd).
Qed.

(** The filters of the option registry ahead of the three writer filters
    keep the default comparison, so the lookup restricted to them ignores
    the letter case of the plug-in identifier. *)
Lemma channel_filters_default_comparison {names : OfxNatronNames} :
  forallb (fun f => defaultPluginComparison (filters f))
          (firstn 17 knobChoiceOptionFilters) = true.
Proof. vm_compute. reflexivity. Qed.

Lemma filterKnobChoiceOptionLoop_letter_case
  (l : list KnobChoiceOptionFilter) (pluginId pluginId' : string)
  (pM pm nM nm nr : Z) (paramName value : string) :
  forallb (fun f => defaultPluginComparison (filters f)) l = true ->
  upcase pluginId = upcase pluginId' ->
  filterKnobChoiceOptionLoop l pluginId pM pm nM nm nr paramName value =
  filterKnobChoiceOptionLoop l pluginId' pM pm nM nm nr paramName value.
Proof.
  intros Hl Hu. induction l as [|f l IH]; [reflexivity|].
  cbn [forallb] in Hl. apply andb_true_iff in Hl. destruct Hl as (Hf & Hl).
  rewrite !filterKnobChoiceOptionLoop_cons, (IH Hl).
  unfold matchKnobFilterInternal.
  now rewrite (scanKnobMatches_letter_case pluginId pluginId' Hu (filters f)
                 paramName pM pm Hf).
Qed.

(** The writer filters and the name filters override the comparison with
    [startsWith], which is sensitive to letter case. *)
Example overridden_comparison_is_case_sensitive :
  @filterKnobChoiceOptionCompat sampleNames "fr.inria.openfx.WritePNG" 1 0
    2 0 0 "bitDepth" "8i" = (true, "8u") /\
  @filterKnobChoiceOptionCompat sampleNames "FR.INRIA.OPENFX.WRITEPNG" 1 0
    2 0 0 "bitDepth" "8i" = (false, "8i").
Proof. split; vm_compute; reflexivity. Qed.

(** ** The registries against the specification of the plug-in gate

    The return from inside the constraint loop cannot be observed through
    the two lookups: on every filter of the two registries the matcher
    agrees with its specification. *)

Lemma pluginVersionBelowMin_open (p : PluginMatch) (major minor : Z) :
  pluginVersionMajorMin p = -1 -> pluginVersionBelowMin p major minor = false.
Proof.
  intros E. unfold_gates. rewrite E. simpl.
  destruct (major =? -1); reflexivity.
Qed.

Lemma scanPlugins_open (l : list PluginMatch) (pluginId : string)
  (pM pm : Z) :
  openVersions l = true -> scanPlugins l pluginId pM pm <> ReturnFalse.
Proof.
  unfold openVersions.
  induction l as [|p l IH]; simpl; [discriminate|].
  intros Hl. apply andb_true_iff in Hl. destruct Hl as (Hp & Hl).
  apply andb_true_iff in Hp. destruct Hp as (Hmin & Hmax).
  apply Z.eqb_eq in Hmin, Hmax.
  rewrite pluginVersionBelowMin_open, pluginVersionAboveMax_open by assumption.
  destruct (call (pluginFunc p) pluginId (pluginID p)); simpl;
    [discriminate | exact (IH Hl)].
Qed.

Section AgainstSpec.

Variables (name pluginId : string) (pM pm : Z).

Local Abbreviation specOf it := (knobMatchSpec it name pluginId pM pm).

(** Alternatives that share one constraint: when it makes the loop leave
    the matcher, the specification refuses all of them too. *)
Lemma scanKnobMatches_same_constraint (p : PluginMatch) (l : list KnobMatch) :
  (forall it, In it l -> plugin it = [p]) ->
  scanKnobMatches l name pluginId pM pm = existsb (fun it => specOf it) l.
Proof.
  intros Hl.
  destruct (scanPlugins [p] pluginId pM pm) as [|b] eqn:Hs.
  - assert (Hgate : pluginGateSpec [p] pluginId pM pm = false).
    { revert Hs. simpl. unfold pluginVersionInRange.
      destruct (call (pluginFunc p) pluginId (pluginID p)); simpl;
        [|discriminate].
      destruct (pluginVersionBelowMin p pM pm); simpl; [reflexivity|].
      destruct (pluginVersionAboveMax p pM pm); simpl;
        [reflexivity|discriminate]. }
    assert (Hnone : existsb (fun it => specOf it) l = false).
    { clear Hs. induction l as [|it l IH]; [reflexivity|].
      cbn [existsb]. rewrite IH by (intros x Hx; apply Hl; now right).
      unfold knobMatchSpec. rewrite (Hl it (or_introl eq_refl)), Hgate.
      reflexivity. }
    rewrite Hnone. destruct l as [|it l]; [reflexivity|].
    cbn [scanKnobMatches]. rewrite (Hl it (or_introl eq_refl)), Hs.
    reflexivity.
  - apply scanKnobMatches_spec.
    intros it Hin. rewrite (Hl it Hin), Hs. discriminate.
Qed.

(** Alternatives whose loop never leaves the matcher, ahead of a list on
    which loop and specification agree. *)
Lemma scanKnobMatches_spec_app (pre post : list KnobMatch) :
  (forall it, In it pre ->
              scanPlugins (plugin it) pluginId pM pm <> ReturnFalse) ->
  scanKnobMatches post name pluginId pM pm =
  existsb (fun it => specOf it) post ->
  scanKnobMatches (pre ++ post) name pluginId pM pm =
  existsb (fun it => specOf it) (pre ++ post).
Proof.
  intros Hpre Hpost.
  induction pre as [|it pre IH]; [exact Hpost|].
  rewrite <- !app_comm_cons. cbn [scanKnobMatches existsb].
  rewrite IH by (intros x Hx; apply Hpre; now right).
  pose proof (Hpre it (or_introl eq_refl)) as Hit.
  rewrite (scanPlugins_spec _ _ _ _ Hit).
  set (tail := existsb _ (pre ++ post)).
  unfold knobMatchSpec.
  destruct (call (func (filter it)) name (nameToMatch (filter it)));
    destruct (plugin it) as [|p ps]; cbn [list_empty negb orb andb];
    try reflexivity;
    destruct (pluginGateSpec (p :: ps) pluginId pM pm); reflexivity.
Qed.

Lemma channelsFilterBase_spec :
  scanKnobMatches (choiceFilters channelsFilterBase) name pluginId pM pm =
  existsb (fun it => specOf it) (choiceFilters channelsFilterBase).
Proof.
  change (choiceFilters channelsFilterBase)
    with (firstn 4 (choiceFilters channelsFilterBase) ++
          skipn 4 (choiceFilters channelsFilterBase)).
  apply scanKnobMatches_spec_app.
  - intros it Hin. apply scanPlugins_open. vm_compute in Hin.
    repeat (destruct Hin as [<-|Hin]); try contradiction; reflexivity.
  - apply (scanKnobMatches_same_constraint
             (mkPluginMatch "net.sf.openfx.ShufflePlugin" 2 (-1) (-1) (-1)
                fn_equalsStringCaseInsensitive)).
    intros it Hin. vm_compute in Hin.
    repeat (destruct Hin as [<-|Hin]); try contradiction; reflexivity.
Qed.

End AgainstSpec.

Lemma matchKnobFilterInternal_spec_of_scan
  {FILTER : Type} `{KnobFilterLike FILTER}
  (f : FILTER) (name pluginId : string) (pM pm nM nm nr : Z) :
  scanKnobMatches (filters f) name pluginId pM pm =
  existsb (fun it => knobMatchSpec it name pluginId pM pm) (filters f) ->
  matchKnobFilterInternal f name pluginId pM pm nM nm nr =
  matchKnobFilterSpec f name pluginId pM pm nM nm nr.
Proof.
  intros E. unfold matchKnobFilterInternal, matchKnobFilterSpec.
  destruct (natronVersionBelowMin _ _ _ _); simpl; [reflexivity|].
  destruct (natronVersionAboveMax _ _ _ _); simpl; [reflexivity|].
  rewrite <- E. destruct (filters f); reflexivity.
Qed.

(** The matcher on the filters of the two registries. *)
Lemma registry_filters_are_spec {names : OfxNatronNames}
  (name pluginId : string) (pM pm nM nm nr : Z) :
  (forall f, In f knobNameFilters ->
     matchKnobFilterInternal f name pluginId pM pm nM nm nr =
     matchKnobFilterSpec f name pluginId pM pm nM nm nr) /\
  (forall f, In f knobChoiceOptionFilters ->
     matchKnobFilterInternal f name pluginId pM pm nM nm nr =
     matchKnobFilterSpec f name pluginId pM pm nM nm nr).
Proof.
  split; intros f Hin.
  - apply matchKnobFilterInternal_spec.
    intros it Hit. apply scanPlugins_open.
    unfold knobNameFilters in Hin. simpl in Hin.
    repeat (destruct Hin as [<-|Hin]); try contradiction;
      vm_compute in Hit;
      repeat (destruct Hit as [<-|Hit]); try contradiction; reflexivity.
  - unfold knobChoiceOptionFilters in Hin. simpl in Hin.
    repeat (destruct Hin as [<-|Hin]); try contradiction;
      try (rewrite channelFilter_shape;
           apply matchKnobFilterInternal_spec_of_scan;
           apply channelsFilterBase_spec);
      (apply matchKnobFilterInternal_spec;
       intros it Hit; apply scanPlugins_open;
       try rewrite planeFilter_shape in Hit;
       vm_compute in Hit;
       repeat (destruct Hit as [<-|Hit]); try contradiction; reflexivity).
Qed.

(** X21. On every filter of the two registries the matcher is the plain
    disjunction over alternatives and constraints: the return from inside
    the constraint loop changes no answer of the two lookups, because the
    only versioned constraint is the single constraint of the last four
    alternatives of the channel filters. *)
Lemma registries_agree_with_spec {names : OfxNatronNames}
  (name pluginId : string) (pM pm nM nm nr : Z) :
  (forall f, In f knobNameFilters ->
     matchKnobFilterInternal f name pluginId pM pm nM nm nr =
     matchKnobFilterSpec f name pluginId pM pm nM nm nr) /\
  (forall f, In f knobChoiceOptionFilters ->
     matchKnobFilterInternal f name pluginId pM pm nM nm nr =
     matchKnobFilterSpec f name pluginId pM pm nM nm nr).
Proof. exact (registry_filters_are_spec name pluginId pM pm nM nm nr). Qed.

(** ** The registries and a minor or revision of -1

    The filters of the registries bound the host version from above only
    and never bound the minor version of a plug-in: on them a host minor of
    -1 behaves as the oldest release of its major, and the minor version of
    the plug-in is not looked at. *)

Lemma pluginVersion_open_minor (p : PluginMatch) (pM pm pm' : Z) :
  pluginVersionMinorMin p = -1 -> pluginVersionMinorMax p = -1 ->
  pluginVersionBelowMin p pM pm = pluginVersionBelowMin p pM pm' /\
  pluginVersionAboveMax p pM pm = pluginVersionAboveMax p pM pm'.
Proof. intros Hmin Hmax. unfold_gates. rewrite Hmin, Hmax. split; reflexivity. Qed.

Lemma scanKnobMatches_open_minor (l : list KnobMatch) (name pluginId : string)
  (pM pm pm' : Z) :
  openMinors l = true ->
  scanKnobMatches l name pluginId pM pm =
  scanKnobMatches l name pluginId pM pm'.
Proof.
  unfold openMinors.
  induction l as [|it l IH]; [reflexivity|].
  cbn [forallb scanKnobMatches]. intros Hl.
  apply andb_true_iff in Hl. destruct Hl as (Hit & Hl).
  rewrite (IH Hl).
  replace (scanPlugins (plugin it) pluginId pM pm)
    with (scanPlugins (plugin it) pluginId pM pm'); [reflexivity|].
  clear IH Hl. induction (plugin it) as [|p ps IHp]; [reflexivity|].
  cbn [forallb scanPlugins] in *.
  apply andb_true_iff in Hit. destruct Hit as (Hp & Hps).
  apply andb_true_iff in Hp. destruct Hp as (Hmin & Hmax).
  apply Z.eqb_eq in Hmin, Hmax.
  destruct (pluginVersion_open_minor p pM pm pm' Hmin Hmax) as (-> & ->).
  now rewrite (IHp Hps).
Qed.

Lemma matchKnobFilterInternal_host_congr
  {FILTER : Type} `{KnobFilterLike FILTER}
  (f : FILTER) (name pluginId : string) (pM pm nM nm nr nM' nm' nr' : Z) :
  natronVersionBelowMin (natronVersionMin f) nM nm nr =
  natronVersionBelowMin (natronVersionMin f) nM' nm' nr' ->
  natronVersionAboveMax (natronVersionMax f) nM nm nr =
  natronVersionAboveMax (natronVersionMax f) nM' nm' nr' ->
  matchKnobFilterInternal f name pluginId pM pm nM nm nr =
  matchKnobFilterInternal f name pluginId pM pm nM' nm' nr'.
Proof. intros Hmin Hmax. unfold matchKnobFilterInternal. now rewrite Hmin, Hmax. Qed.

(** Replaces the bounds of a closed filter by their values. *)
Ltac eval_bounds :=
  repeat match goal with
         | |- context [natronVersionMin ?f] =>
             let v := eval vm_compute in (natronVersionMin f) in
             change (natronVersionMin f) with v
         | |- context [natronVersionMax ?f] =>
             let v := eval vm_compute in (natronVersionMax f) in
             change (natronVersionMax f) with v
         end.

Lemma registries_minor_of_minus_one {names : OfxNatronNames}
  (name pluginId : string) (pM pm pm' nM nr : Z) :
  (forall f, In f knobNameFilters ->
     matchKnobFilterInternal f name pluginId pM pm nM (-1) nr =
     matchKnobFilterInternal f name pluginId pM pm' nM 0 0) /\
  (forall f, In f knobChoiceOptionFilters ->
     matchKnobFilterInternal f name pluginId pM pm nM (-1) nr =
     matchKnobFilterInternal f name pluginId pM pm' nM 0 0).
Proof.
  split; intros f Hin.
  - transitivity (matchKnobFilterInternal f name pluginId pM pm nM 0 0).
    + unfold knobNameFilters in Hin. simpl in Hin.
      repeat (destruct Hin as [<-|Hin]); try contradiction;
        apply matchKnobFilterInternal_host_congr; eval_bounds;
        unfold_gates; simpl; z_bool.
    + unfold matchKnobFilterInternal.
      rewrite (scanKnobMatches_open_minor (filters f) name pluginId pM pm pm');
        [reflexivity|].
      unfold knobNameFilters in Hin. simpl in Hin.
      repeat (destruct Hin as [<-|Hin]); try contradiction; reflexivity.
  - transitivity (matchKnobFilterInternal f name pluginId pM pm nM 0 0).
    + unfold knobChoiceOptionFilters in Hin. simpl in Hin.
      repeat (destruct Hin as [<-|Hin]); try contradiction;
        apply matchKnobFilterInternal_host_congr; eval_bounds;
        unfold_gates; simpl; z_bool.
    + unfold matchKnobFilterInternal.
      rewrite (scanKnobMatches_open_minor (filters f) name pluginId pM pm pm');
        [reflexivity|].
      unfold knobChoiceOptionFilters in Hin. simpl in Hin.
      repeat (destruct Hin as [<-|Hin]); try contradiction; reflexivity.
Qed.

(** ** Instances of the theorems on concrete inputs *)

Lemma unknown_major_disables_version_gates_witness :
  natronVersionAboveMax (mkNatronVersionMatch 2 2 99) (-1) 3 100 = false /\
  natronVersionAboveMax (mkNatronVersionMatch 2 2 99) 2 (-1) 100 = false /\
  pluginVersionAboveMax
    (mkPluginMatch "net.sf.openfx.ShufflePlugin" (-1) (-1) 2 0
       fn_equalsStringCaseInsensitive) 2 (-1) = false.
Proof.
  pose proof (unknown_major_disables_version_gates
                KnobNameFilter KnobNameFilter_like (@nameFilter_R sampleNames)
                (mkPluginMatch "net.sf.openfx.ShufflePlugin" (-1) (-1) 2 0
                   fn_equalsStringCaseInsensitive)
                [] "net.sf.openfx.ShufflePlugin" 2 0 2 3 100
                ltac:(simpl; lia) ltac:(simpl; lia) ltac:(simpl; lia))
    as (Hhost & _ & Hminor & _ & Hplugin).
  split; [exact (proj2 Hhost)|].
  split; [exact Hminor | exact Hplugin].
Defined.

Lemma filterKnobNameCompat_first_match_wins_witness :
  exists pre f post,
    @knobNameFilters sampleNames = pre ++ f :: post /\
    (forall g, In g pre ->
       matchKnobFilterInternal g "doGreen" "fr.inria.built-in.Roto"
         1 0 2 1 0 = false) /\
    matchKnobFilterInternal f "doGreen" "fr.inria.built-in.Roto"
      1 0 2 1 0 = true /\
    @filterKnobNameCompat sampleNames "fr.inria.built-in.Roto" 1 0 2 1 0
      "doGreen" = (true, replacement f).
Proof.
  apply filterKnobNameCompat_first_match_wins.
  exists (@nameFilter_G sampleNames). split.
  - right. left. reflexivity.
  - vm_compute. reflexivity.
Defined.

Lemma filterKnobChoiceOptionCompat_scan_then_continue_witness :
  @filterKnobChoiceOptionCompat sampleNames "net.sf.openfx.Foo" 1 0 2 2 0
    "maskChannel_Mask" "green" =
  (true, "uk.co.thefoundry.OfxImagePlaneColour.G").
Proof.
  refine (proj1 (filterKnobChoiceOptionCompat_scan_then_continue sampleNames
                   "net.sf.openfx.Foo" 1 0 2 2 0 "maskChannel_Mask" "green"
                   (firstn 6 (@knobChoiceOptionFilters sampleNames))
                   (skipn 7 (@knobChoiceOptionFilters sampleNames))
                   (channelFilter [ "RGBA.G"; "UV.g"; "green"; "g" ]
                      "uk.co.thefoundry.OfxImagePlaneColour.G")
                   eq_refl _ eq_refl)
                [ mkFilterMatcher "RGBA.G" fn_equalsStringCaseInsensitive;
                  mkFilterMatcher "UV.g" fn_equalsStringCaseInsensitive ]
                (mkFilterMatcher "green" fn_equalsStringCaseInsensitive)
                [ mkFilterMatcher "g" fn_equalsStringCaseInsensitive ]
                eq_refl _ eq_refl).
  - intros g Hin. vm_compute in Hin.
    repeat (destruct Hin as [<-|Hin]); try contradiction; reflexivity.
  - intros x Hin. vm_compute in Hin.
    repeat (destruct Hin as [<-|Hin]); try contradiction; reflexivity.
Defined.

Lemma lookups_rewrite_or_leave_witness :
  @filterKnobNameCompat sampleNames "com.example.Plugin" 1 0 2 0 0 "r" =
  (false, "r").
Proof.
  refine (proj1 (proj2 (proj2 (lookups_rewrite_or_leave sampleNames
                                 "com.example.Plugin" 1 0 2 0 0 "" "r"))) _).
  intros f Hin. vm_compute in Hin.
  repeat (destruct Hin as [<-|Hin]); try contradiction; reflexivity.
Defined.

Lemma maskChannel_red_becomes_color_R_witness :
  upTo_2_2_99 2 2 99 /\
  @filterKnobChoiceOptionCompat sampleNames "net.sf.openfx.MergePlugin" 1 0
    2 2 99 "maskChannel_Mask" "red" =
  (true, "uk.co.thefoundry.OfxImagePlaneColour.R").
Proof.
  assert (Hv : upTo_2_2_99 2 2 99).
  { right. right. right. split; [reflexivity | split; [reflexivity | lia]]. }
  split; [exact Hv|].
  exact (proj1 (maskChannel_red_becomes_color_R sampleNames
                  "net.sf.openfx.MergePlugin" 1 0 2 2 99 "_Mask" Hv)).
Defined.

Lemma registry_assertions_hold_witness :
  Forall (fun f : KnobNameFilter =>
            assertReplacement f = true /\
            list_empty (filters f) = false) (@knobNameFilters sampleNames) /\
  Forall (fun f : KnobChoiceOptionFilter =>
            assertReplacement f = true /\
            assertOptionFilters f = true /\
            list_empty (filters f) = false)
         (@knobChoiceOptionFilters sampleNames).
Proof.
  exact (registry_assertions_hold sampleNames
           eq_refl eq_refl eq_refl eq_refl eq_refl).
Defined.

Lemma plugin_id_letter_case_ignored_witness :
  matchKnobFilterInternal
    (channelFilter [ "A.r" ] "A.uk.co.thefoundry.OfxImagePlaneColour.R")
    "channelU" "NET.SF.OPENFX.idistort" 1 0 2 0 0 = true.
Proof.
  rewrite <- (plugin_id_letter_case_ignored
                KnobChoiceOptionFilter KnobChoiceOptionFilter_like
                (channelFilter [ "A.r" ]
                   "A.uk.co.thefoundry.OfxImagePlaneColour.R")
                "channelU" "net.sf.openfx.IDistort" "NET.SF.OPENFX.idistort"
                1 0 2 0 0 eq_refl eq_refl).
  reflexivity.
Defined.

(** * Further properties of the code *)

(** ** The four comparison functions *)

Lemma length_append (a b : string) :
  String.length (String.append a b) = (String.length a + String.length b)%nat.
Proof. induction a as [|c a IH]; simpl; [reflexivity | now rewrite IH]. Qed.

Lemma substr0_split (n : nat) (str : string) :
  exists rest, str = String.append (substr0 n str) rest.
Proof.
  revert str. induction n as [|n IH]; intros str.
  - exists str. reflexivity.
  - destruct str as [|c str]; simpl.
    + exists EmptyString. reflexivity.
    + destruct (IH str) as (rest & E). exists rest. now rewrite <- E.
Qed.

Lemma substr0_all (s : string) : substr0 (String.length s) s = s.
Proof. induction s as [|c s IH]; simpl; [reflexivity | now rewrite IH]. Qed.

Lemma substr_skip (front s : string) (n : nat) :
  substr (String.length front) n (String.append front s) = substr0 n s.
Proof.
  induction front as [|c front IH]; simpl; [now destruct s | exact IH].
Qed.

(** A string splits at every position up to its length. *)
Lemma split_at (n : nat) (str : string) :
  (n <= String.length str)%nat ->
  exists front back,
    str = String.append front back /\ String.length front = n.
Proof.
  revert str. induction n as [|n IH]; intros str Hn.
  - exists EmptyString, str. split; reflexivity.
  - destruct str as [|c str]; simpl in Hn; [lia|].
    destruct (IH str ltac:(lia)) as (front & back & E & L).
    exists (String c front), back. simpl. now rewrite <- E, L.
Qed.

(** X1. [startsWith(str, prefix)] is true exactly when [str] is [prefix]
    followed by some rest; in particular a prefix longer than the string
    gives false and the empty prefix gives true. *)
Theorem startsWith_iff_prefix (str prefix : string) :
  startsWith str prefix = true <->
  exists rest, str = String.append prefix rest.
Proof.
  unfold startsWith. rewrite String.eqb_eq. split.
  - intros E. destruct (substr0_split (String.length prefix) str) as (rest & Hs).
    exists rest. now rewrite E in Hs.
  - intros (rest & ->). apply substr0_append.
Qed.

(** X2. [endsWith(str, suffix)] is true exactly when [str] is some front
    followed by [suffix]; a suffix longer than the string gives false
    without reading outside the string. *)
Theorem endsWith_iff_suffix (str suffix : string) :
  endsWith str suffix = true <->
  exists front, str = String.append front suffix.
Proof.
  unfold endsWith. rewrite andb_true_iff, Nat.leb_le, String.eqb_eq. split.
  - intros (Hlen & E).
    destruct (split_at (String.length str - String.length suffix) str
                ltac:(lia)) as (front & back & Hs & Hf).
    exists front. rewrite Hs in E at 2. rewrite <- Hf, substr_skip in E.
    assert (Hb : String.length back = String.length suffix).
    { apply (f_equal String.length) in Hs. rewrite length_append in Hs. lia. }
    rewrite <- Hb, substr0_all in E. now rewrite <- E.
  - intros (front & ->). rewrite length_append. split; [lia|].
    replace (String.length front + String.length suffix
             - String.length suffix)%nat with (String.length front) by lia.
    rewrite substr_skip. apply substr0_all.
Qed.

Lemma upcase_length (s : string) :
  String.length (upcase s) = String.length s.
Proof. induction s as [|c s IH]; simpl; [reflexivity | now rewrite IH]. Qed.

(** X3. [equalsStringCaseInsensitive] is an equivalence relation on
    strings that contains [equalsStringCaseSensitive], which is equality;
    strings it relates have the same length. *)
Theorem equalsStringCaseInsensitive_equivalence :
  (forall a, equalsStringCaseInsensitive a a = true) /\
  (forall a b, equalsStringCaseInsensitive a b =
               equalsStringCaseInsensitive b a) /\
  (forall a b c, equalsStringCaseInsensitive a b = true ->
                 equalsStringCaseInsensitive b c = true ->
                 equalsStringCaseInsensitive a c = true) /\
  (forall a b, equalsStringCaseSensitive a b = true <-> a = b) /\
  (forall a b, equalsStringCaseSensitive a b = true ->
               equalsStringCaseInsensitive a b = true) /\
  (forall a b, equalsStringCaseInsensitive a b = true ->
               String.length a = String.length b).
Proof.
  unfold equalsStringCaseInsensitive, equalsStringCaseSensitive.
  repeat split.
  - intros a. now apply iequals_upcase.
  - intros a b.
    destruct (iequals a b) eqn:Hab, (iequals b a) eqn:Hba; try reflexivity.
    + apply iequals_upcase in Hab. symmetry in Hab.
      apply iequals_upcase in Hab. congruence.
    + apply iequals_upcase in Hba. symmetry in Hba.
      apply iequals_upcase in Hba. congruence.
  - intros a b c Hab Hbc. apply iequals_upcase.
    apply iequals_upcase in Hab, Hbc. congruence.
  - apply String.eqb_eq.
  - apply String.eqb_eq.
  - intros a b E. apply String.eqb_eq in E. subst b. now apply iequals_upcase.
  - intros a b E. apply iequals_upcase in E.
    rewrite <- (upcase_length a), <- (upcase_length b). now rewrite E.
Qed.

(** ** The version tests *)

(** X4. With a known major and a bound whose three fields are set, the
    lower-bound test of the host version rejects exactly the versions
    below the bound in the lexicographic order, and the upper-bound test
    exactly those above it. *)
Theorem natron_version_tests_lexicographic :
  forall (b : NatronVersionMatch) (major minor rev : Z),
    major <> -1 -> vMajor b <> -1 -> vMinor b <> -1 -> vRev b <> -1 ->
    (natronVersionBelowMin b major minor rev = true <->
     lexLt (major, minor, rev) (vMajor b, vMinor b, vRev b)) /\
    (natronVersionAboveMax b major minor rev = true <->
     lexLt (vMajor b, vMinor b, vRev b) (major, minor, rev)).
Proof.
  intros [bM bm br] major minor rev HM HbM Hbm Hbr. simpl in *.
  unfold natronVersionBelowMin, natronVersionAboveMax, lexLt. simpl.
  rewrite !Z.gtb_ltb.
  destruct (Z.eqb_spec major (-1)), (Z.eqb_spec bM (-1)),
    (Z.eqb_spec bm (-1)), (Z.eqb_spec br (-1)); try contradiction.
  destruct (Z.ltb_spec major bM), (Z.ltb_spec bM major),
    (Z.eqb_spec major bM), (Z.ltb_spec minor bm), (Z.ltb_spec bm minor),
    (Z.eqb_spec minor bm), (Z.ltb_spec rev br), (Z.ltb_spec br rev);
    simpl; split; split; intros Hx; try reflexivity; try discriminate; lia.
Qed.

(** X5. The version tests are monotone for known majors: a version above
    the upper bound stays above it when it grows in the lexicographic
    order, and a version below the lower bound stays below it when it
    shrinks; this holds whichever fields of the bound are open. *)
Theorem natron_version_tests_monotone :
  forall (b : NatronVersionMatch) (M m r M' m' r' : Z),
    M <> -1 -> M' <> -1 ->
    lexLe (M, m, r) (M', m', r') ->
    (natronVersionAboveMax b M m r = true ->
     natronVersionAboveMax b M' m' r' = true) /\
    (natronVersionBelowMin b M' m' r' = true ->
     natronVersionBelowMin b M m r = true).
Proof.
  intros [bM bm br] M m r M' m' r' HM HM' Hle.
  assert (Hlex : M < M' \/ (M = M' /\ (m < m' \/ (m = m' /\ r <= r')))).
  { destruct Hle as [Hlt|E].
    - unfold lexLt in Hlt. lia.
    - injection E as -> -> ->. lia. }
  clear Hle.
  unfold natronVersionBelowMin, natronVersionAboveMax. simpl.
  rewrite !Z.gtb_ltb.
  destruct (Z.eqb_spec M (-1)), (Z.eqb_spec M' (-1)); try contradiction.
  destruct (Z.eqb_spec bM (-1)), (Z.eqb_spec bm (-1)), (Z.eqb_spec br (-1));
    simpl; try (split; intros Hx; (exact Hx || discriminate));
    destruct (Z.ltb_spec bM M), (Z.ltb_spec bM M'),
      (Z.ltb_spec M bM), (Z.ltb_spec M' bM);
    simpl; try (split; intros Hx; (reflexivity || discriminate || lia));
    destruct (Z.eqb_spec M bM), (Z.eqb_spec M' bM);
    simpl; try (split; intros Hx; (reflexivity || discriminate || lia));
    destruct (Z.ltb_spec bm m), (Z.ltb_spec bm m'),
      (Z.ltb_spec m bm), (Z.ltb_spec m' bm);
    simpl; try (split; intros Hx; (reflexivity || discriminate || lia));
    destruct (Z.eqb_spec m bm), (Z.eqb_spec m' bm);
    simpl; try (split; intros Hx; (reflexivity || discriminate || lia));
    destruct (Z.ltb_spec br r), (Z.ltb_spec br r'),
      (Z.ltb_spec r br), (Z.ltb_spec r' br);
    simpl; split; intros Hx; (reflexivity || discriminate || lia).
Qed.

(** X6. An open field of a bound makes the finer fields of the bound
    irrelevant, for the four version tests: with an open major the lower
    bound rejects nothing, and with an open minor the revision of the
    bound is not looked at. *)
Theorem open_bound_field_hides_finer_fields :
  forall (bM bm br br' major minor rev : Z)
         (id : string) (majorMax minorMax minorMin : Z) (cmp : stringFuncPtr),
    natronVersionBelowMin (mkNatronVersionMatch (-1) bm br) major minor rev
    = false /\
    natronVersionBelowMin (mkNatronVersionMatch bM (-1) br) major minor rev =
    natronVersionBelowMin (mkNatronVersionMatch bM (-1) br') major minor rev /\
    natronVersionAboveMax (mkNatronVersionMatch bM (-1) br) major minor rev =
    natronVersionAboveMax (mkNatronVersionMatch bM (-1) br') major minor rev /\
    pluginVersionBelowMin
      (mkPluginMatch id (-1) minorMin majorMax minorMax cmp) major minor
    = false.
Proof.
  intros. unfold_gates. simpl.
  repeat split; destruct (major =? -1); reflexivity.
Qed.

(** ** The matcher *)

(** X7. In the loop over the plug-in constraints of an alternative the
    first constraint whose identifier matches decides alone: without such a
    constraint the alternative is skipped; with its version in range the
    plug-in is accepted; with its version out of range the whole matcher
    returns false.  The constraints after it are not looked at. *)
Theorem scanPlugins_first_identifier_decides :
  forall (l : list PluginMatch) (pluginId : string) (pM pm : Z),
    scanPlugins l pluginId pM pm =
    match find (fun p => call (pluginFunc p) pluginId (pluginID p)) l with
    | None => LoopDone false
    | Some p =>
        if pluginVersionInRange p pM pm then LoopDone true else ReturnFalse
    end.
Proof.
  intros l pluginId pM pm. induction l as [|p l IH]; simpl; [reflexivity|].
  unfold pluginVersionInRange.
  destruct (call (pluginFunc p) pluginId (pluginID p)); simpl; [|exact IH].
  destruct (pluginVersionBelowMin p pM pm); simpl; [reflexivity|].
  destruct (pluginVersionAboveMax p pM pm); reflexivity.
Qed.

Lemma scanKnobMatches_sound (l : list KnobMatch) (name pluginId : string)
  (pM pm : Z) :
  scanKnobMatches l name pluginId pM pm = true ->
  existsb (fun it => knobMatchSpec it name pluginId pM pm) l = true.
Proof.
  induction l as [|it l IH]; [discriminate|].
  cbn [scanKnobMatches existsb]. unfold knobMatchSpec at 1.
  destruct (plugin it) as [|p ps] eqn:Hp; cbn [list_empty negb orb].
  - destruct (call (func (filter it)) name (nameToMatch (filter it)));
      [reflexivity|]. exact IH.
  - destruct (scanPlugins (p :: ps) pluginId pM pm) as [|b] eqn:Hs;
      [discriminate|].
    assert (Hb : pluginGateSpec (p :: ps) pluginId pM pm = b).
    { pose proof (scanPlugins_spec (p :: ps) pluginId pM pm) as Hsp.
      rewrite Hs in Hsp. specialize (Hsp ltac:(discriminate)).
      now injection Hsp. }
    rewrite Hb. destruct b.
    + destruct (call (func (filter it)) name (nameToMatch (filter it)));
        [reflexivity|]. exact IH.
    + exact IH.
Qed.

(** X8. The matcher never accepts more than the plain disjunction over
    alternatives and constraints does: whenever it returns true, some
    alternative has a matching name pattern and either no plug-in
    constraint or one with a matching identifier and the version in range.
    The return from inside the constraint loop only turns acceptance into
    refusal. *)
Theorem matchKnobFilterInternal_sound :
  forall (FILTER : Type) (F : KnobFilterLike FILTER) (f : FILTER)
         (name pluginId : string) (pM pm nM nm nr : Z),
    matchKnobFilterInternal f name pluginId pM pm nM nm nr = true ->
    matchKnobFilterSpec f name pluginId pM pm nM nm nr = true.
Proof.
  intros FILTER F f name pluginId pM pm nM nm nr.
  unfold matchKnobFilterInternal, matchKnobFilterSpec.
  destruct (natronVersionBelowMin _ _ _ _); [discriminate|].
  destruct (natronVersionAboveMax _ _ _ _); [discriminate|].
  destruct (filters f) as [|it l] eqn:Hf; [reflexivity|].
  cbn [list_empty negb orb andb]. apply scanKnobMatches_sound.
Qed.

Lemma scanKnobMatches_anyPlugin (l : list KnobMatch) (name pluginId : string)
  (pM pm : Z) :
  anyPlugin l = true ->
  scanKnobMatches l name pluginId pM pm =
  existsb (fun it => call (func (filter it)) name (nameToMatch (filter it))) l.
Proof.
  unfold anyPlugin. induction l as [|it l IH]; [reflexivity|].
  cbn [forallb scanKnobMatches existsb]. intros Hl.
  apply andb_true_iff in Hl. destruct Hl as (Hit & Hl).
  rewrite Hit, (IH Hl). simpl.
  now destruct (call (func (filter it)) name (nameToMatch (filter it))).
Qed.

(** X9. A filter whose alternatives name no plug-in (or that has no
    alternative at all) applies to any plug-in: its answer does not depend
    on the plug-in identifier nor on the plug-in version. *)
Theorem matchKnobFilterInternal_any_plugin :
  forall (FILTER : Type) (F : KnobFilterLike FILTER) (f : FILTER)
         (name pluginId pluginId' : string) (pM pm pM' pm' nM nm nr : Z),
    anyPlugin (filters f) = true ->
    matchKnobFilterInternal f name pluginId pM pm nM nm nr =
    matchKnobFilterInternal f name pluginId' pM' pm' nM nm nr.
Proof.
  intros FILTER F f name pluginId pluginId' pM pm pM' pm' nM nm nr Hany.
  unfold matchKnobFilterInternal.
  now rewrite (scanKnobMatches_anyPlugin _ name pluginId pM pm Hany),
    (scanKnobMatches_anyPlugin _ name pluginId' pM' pm' Hany).
Qed.

Lemma existsb_Permutation {A : Type} (P : A -> bool) (l l' : list A) :
  Permutation l l' -> existsb P l = existsb P l'.
Proof.
  induction 1 as [|x l l' _ IH|x y l|l l' l'' _ IH1 _ IH2]; simpl.
  - reflexivity.
  - now rewrite IH.
  - now destruct (P x), (P y).
  - congruence.
Qed.

Lemma forallb_Permutation {A : Type} (P : A -> bool) (l l' : list A) :
  Permutation l l' -> forallb P l = forallb P l'.
Proof.
  induction 1 as [|x l l' _ IH|x y l|l l' l'' _ IH1 _ IH2]; simpl.
  - reflexivity.
  - now rewrite IH.
  - now destruct (P x), (P y).
  - congruence.
Qed.

Lemma scanKnobMatches_open_spec (l : list KnobMatch) (name pluginId : string)
  (pM pm : Z) :
  allOpenVersions l = true ->
  scanKnobMatches l name pluginId pM pm =
  existsb (fun it => knobMatchSpec it name pluginId pM pm) l.
Proof.
  intros Hl. apply scanKnobMatches_spec. intros it Hin.
  apply scanPlugins_open.
  unfold allOpenVersions in Hl. rewrite forallb_forall in Hl. now apply Hl.
Qed.

(** X10. Where no constraint carries a version range, order does not
    matter: permuting the plug-in constraints of an alternative leaves the
    outcome of the constraint loop unchanged, and permuting the
    alternatives of a filter leaves the answer of the matcher unchanged. *)
Theorem open_versions_order_irrelevant :
  forall (name pluginId : string) (pM pm : Z),
    (forall l l' : list PluginMatch,
       Permutation l l' -> openVersions l = true ->
       scanPlugins l pluginId pM pm = scanPlugins l' pluginId pM pm) /\
    (forall l l' : list KnobMatch,
       Permutation l l' -> allOpenVersions l = true ->
       scanKnobMatches l name pluginId pM pm =
       scanKnobMatches l' name pluginId pM pm).
Proof.
  intros name pluginId pM pm. split.
  - intros l l' Hp Ho.
    assert (Ho' : openVersions l' = true).
    { unfold openVersions in *. now rewrite <- (forallb_Permutation _ _ _ Hp). }
    rewrite !scanPlugins_spec by now apply scanPlugins_open.
    unfold pluginGateSpec. now rewrite (existsb_Permutation _ _ _ Hp).
  - intros l l' Hp Ho.
    assert (Ho' : allOpenVersions l' = true).
    { unfold allOpenVersions in *.
      now rewrite <- (forallb_Permutation _ _ _ Hp). }
    rewrite !scanKnobMatches_open_spec by assumption.
    apply existsb_Permutation, Hp.
Qed.

(** X11. When the caller knows neither the plug-in version nor the host
    version (both majors are -1), the matcher compares identifiers and
    names only: it accepts exactly when the filter has no alternative, or
    one whose name pattern matches and that lists no plug-in or a plug-in
    whose identifier matches. *)
Theorem matchKnobFilterInternal_unknown_versions :
  forall (FILTER : Type) (F : KnobFilterLike FILTER) (f : FILTER)
         (name pluginId : string) (pm nm nr : Z),
    matchKnobFilterInternal f name pluginId (-1) pm (-1) nm nr =
    list_empty (filters f) ||
    existsb (fun it => knobMatchNoVersion it name pluginId) (filters f).
Proof.
  intros FILTER F f name pluginId pm nm nr.
  unfold matchKnobFilterInternal. simpl.
  assert (E : forall l,
             scanKnobMatches l name pluginId (-1) pm =
             existsb (fun it => knobMatchNoVersion it name pluginId) l).
  { induction l as [|it l IH]; [reflexivity|].
    cbn [scanKnobMatches existsb]. rewrite IH, scanPlugins_unknown_major.
    set (tail := existsb _ l).
    unfold knobMatchNoVersion.
    destruct (call (func (filter it)) name (nameToMatch (filter it)));
      destruct (plugin it) as [|p ps]; cbn [list_empty negb orb andb];
      try reflexivity;
      destruct (existsb _ (p :: ps)); reflexivity. }
  rewrite E. now destruct (filters f).
Qed.

(** ** The name lookup on its registry *)

Lemma pluginVersionInRange_open (p : PluginMatch) (pM pm : Z) :
  pluginVersionMajorMin p = -1 -> pluginVersionMajorMax p = -1 ->
  pluginVersionInRange p pM pm = true.
Proof.
  intros Hmin Hmax. unfold pluginVersionInRange.
  now rewrite pluginVersionBelowMin_open, pluginVersionAboveMax_open.
Qed.

(** The answer of the matcher on a filter of the shape of the four name
    filters: two names, each for the two plug-in families, up to 2.2.99. *)
Lemma nameFilter_accepts (a b repl name pluginId : string)
  (pM pm nM nm nr : Z) :
  matchKnobFilterInternal
    (mkKnobNameFilter
       [ mkKnobMatch
           [ mkPluginMatch "fr.inria." (-1) (-1) (-1) (-1) fn_startsWith;
             mkPluginMatch "net.sf.openfx." (-1) (-1) (-1) (-1) fn_startsWith ]
           (mkFilterMatcher a fn_equalsStringCaseSensitive);
         mkKnobMatch
           [ mkPluginMatch "fr.inria." (-1) (-1) (-1) (-1) fn_startsWith;
             mkPluginMatch "net.sf.openfx." (-1) (-1) (-1) (-1) fn_startsWith ]
           (mkFilterMatcher b fn_equalsStringCaseSensitive) ]
       repl NatronVersionMatch_default (mkNatronVersionMatch 2 2 99))
    name pluginId pM pm nM nm nr =
  negb (natronVersionAboveMax (mkNatronVersionMatch 2 2 99) nM nm nr) &&
  natronPlugin pluginId &&
  (equalsStringCaseSensitive name a || equalsStringCaseSensitive name b).
Proof.
  unfold matchKnobFilterInternal.
  cbn [natronVersionMin natronVersionMax filters KnobNameFilter_like
       nameVersionMin nameVersionMax nameFilters].
  rewrite natronVersionBelowMin_open by reflexivity.
  destruct (natronVersionAboveMax _ nM nm nr); [reflexivity|].
  cbn [negb andb list_empty].
  rewrite scanKnobMatches_open_spec by reflexivity.
  cbn [existsb]. unfold knobMatchSpec, pluginGateSpec.
  cbn [plugin filter func nameToMatch list_empty orb existsb
       pluginFunc pluginID call].
  rewrite !pluginVersionInRange_open by reflexivity.
  unfold natronPlugin.
  destruct (startsWith pluginId "fr.inria."),
    (startsWith pluginId "net.sf.openfx."),
    (equalsStringCaseSensitive name a),
    (equalsStringCaseSensitive name b); reflexivity.
Qed.

(** X12. The name lookup in closed form: it rewrites exactly when the host
    version is not above 2.2.99 (or its major is unknown), the plug-in
    identifier starts with ["fr.inria."] or ["net.sf.openfx."], and the
    name is one of [r], [doRed], [g], [doGreen], [b], [doBlue], [a],
    [doAlpha], compared exactly; the replacement is the process parameter
    of that channel.  The plug-in version is never looked at. *)
Theorem filterKnobNameCompat_closed_form :
  forall (names : OfxNatronNames) (pluginId : string)
         (pM pm nM nm nr : Z) (name : string),
    filterKnobNameCompat pluginId pM pm nM nm nr name =
    if negb (natronVersionAboveMax (mkNatronVersionMatch 2 2 99) nM nm nr) &&
       natronPlugin pluginId
    then match legacyProcessName name with
         | Some r => (true, r)
         | None => (false, name)
         end
    else (false, name).
Proof.
  intros names pluginId pM pm nM nm nr name.
  unfold filterKnobNameCompat, knobNameFilters.
  cbn [filterKnobNameLoop].
  rewrite (nameFilter_accepts "r" "doRed" kNatronOfxParamProcessR
             name pluginId pM pm nM nm nr
           : matchKnobFilterInternal nameFilter_R _ _ _ _ _ _ _ = _).
  rewrite (nameFilter_accepts "g" "doGreen" kNatronOfxParamProcessG
             name pluginId pM pm nM nm nr
           : matchKnobFilterInternal nameFilter_G _ _ _ _ _ _ _ = _).
  rewrite (nameFilter_accepts "b" "doBlue" kNatronOfxParamProcessB
             name pluginId pM pm nM nm nr
           : matchKnobFilterInternal nameFilter_B _ _ _ _ _ _ _ = _).
  rewrite (nameFilter_accepts "a" "doAlpha" kNatronOfxParamProcessA
             name pluginId pM pm nM nm nr
           : matchKnobFilterInternal nameFilter_A _ _ _ _ _ _ _ = _).
  unfold legacyProcessName.
  destruct (negb (natronVersionAboveMax _ nM nm nr)), (natronPlugin pluginId);
    cbn [andb negb]; try reflexivity.
  destruct (equalsStringCaseSensitive name "r" ||
            equalsStringCaseSensitive name "doRed"); [reflexivity|].
  destruct (equalsStringCaseSensitive name "g" ||
            equalsStringCaseSensitive name "doGreen"); [reflexivity|].
  destruct (equalsStringCaseSensitive name "b" ||
            equalsStringCaseSensitive name "doBlue"); [reflexivity|].
  destruct (equalsStringCaseSensitive name "a" ||
            equalsStringCaseSensitive name "doAlpha"); reflexivity.
Qed.

(** ** The option lookup on its registry *)

(** The two loops depend on the context of the call through the answers
    of the matcher only. *)
Lemma filterKnobNameLoop_ext (l : list KnobNameFilter) (name : string)
  (pluginId pluginId' : string) (pM pm nM nm nr pM' pm' nM' nm' nr' : Z) :
  (forall f, In f l ->
     matchKnobFilterInternal f name pluginId pM pm nM nm nr =
     matchKnobFilterInternal f name pluginId' pM' pm' nM' nm' nr') ->
  filterKnobNameLoop l pluginId pM pm nM nm nr name =
  filterKnobNameLoop l pluginId' pM' pm' nM' nm' nr' name.
Proof.
  induction l as [|f l IH]; intros Hl; [reflexivity|].
  cbn [filterKnobNameLoop].
  rewrite (Hl f (or_introl eq_refl)).
  now rewrite IH by (intros g Hg; apply Hl; now right).
Qed.

Lemma filterKnobChoiceOptionLoop_ext (l : list KnobChoiceOptionFilter)
  (paramName value : string)
  (pluginId pluginId' : string) (pM pm nM nm nr pM' pm' nM' nm' nr' : Z) :
  (forall f, In f l ->
     matchKnobFilterInternal f paramName pluginId pM pm nM nm nr =
     matchKnobFilterInternal f paramName pluginId' pM' pm' nM' nm' nr') ->
  filterKnobChoiceOptionLoop l pluginId pM pm nM nm nr paramName value =
  filterKnobChoiceOptionLoop l pluginId' pM' pm' nM' nm' nr' paramName value.
Proof.
  induction l as [|f l IH]; intros Hl; [reflexivity|].
  rewrite !filterKnobChoiceOptionLoop_cons.
  rewrite (Hl f (or_introl eq_refl)).
  now rewrite IH by (intros g Hg; apply Hl; now right).
Qed.

Lemma registries_openMinors {names : OfxNatronNames} :
  forallb (fun f => openMinors (filters f)) knobNameFilters = true /\
  forallb (fun f => openMinors (filters f)) knobChoiceOptionFilters = true.
Proof. split; vm_compute; reflexivity. Qed.

(** X13. On the two registries the plug-in minor version is never looked
    at: at every host version both lookups return the same pair for any
    two plug-in minors.  And a host minor of -1 next to a known major gives
    the same result as the release [major.0.0], whatever the revision. *)
Theorem lookups_ignore_minor_fields :
  forall (names : OfxNatronNames) (pluginId : string)
         (pM pm pm' nM nm nr : Z) (paramName name : string),
    (filterKnobNameCompat pluginId pM pm nM nm nr name =
     filterKnobNameCompat pluginId pM pm' nM nm nr name /\
     filterKnobChoiceOptionCompat pluginId pM pm nM nm nr paramName name =
     filterKnobChoiceOptionCompat pluginId pM pm' nM nm nr paramName name) /\
    (filterKnobNameCompat pluginId pM pm nM (-1) nr name =
     filterKnobNameCompat pluginId pM pm' nM 0 0 name /\
     filterKnobChoiceOptionCompat pluginId pM pm nM (-1) nr paramName name =
     filterKnobChoiceOptionCompat pluginId pM pm' nM 0 0 paramName name).
Proof.
  intros names pluginId pM pm pm' nM nm nr paramName name.
  destruct (@registries_openMinors names) as (HN & HO).
  rewrite forallb_forall in HN, HO.
  split; split.
  - apply filterKnobNameLoop_ext. intros f Hin.
    unfold matchKnobFilterInternal.
    now rewrite (scanKnobMatches_open_minor (filters f) name pluginId
                   pM pm pm' (HN f Hin)).
  - apply filterKnobChoiceOptionLoop_ext. intros f Hin.
    unfold matchKnobFilterInternal.
    now rewrite (scanKnobMatches_open_minor (filters f) paramName pluginId
                   pM pm pm' (HO f Hin)).
  - apply filterKnobNameLoop_ext.
    apply (registries_minor_of_minus_one name pluginId pM pm pm' nM nr).
  - apply filterKnobChoiceOptionLoop_ext.
    apply (registries_minor_of_minus_one paramName pluginId pM pm pm' nM nr).
Qed.

Lemma scanOptionFilters_letter_case (l : list FilterMatcher)
  (value value' : string) :
  forallb (fun o => stringFuncPtr_eqb (func o)
                      fn_equalsStringCaseInsensitive) l = true ->
  upcase value = upcase value' ->
  scanOptionFilters l value = scanOptionFilters l value'.
Proof.
  intros Hl Hu. induction l as [|o l IH]; [reflexivity|].
  cbn [forallb scanOptionFilters] in *.
  apply andb_true_iff in Hl. destruct Hl as (Ho & Hl).
  apply stringFuncPtr_eqb_eq in Ho. rewrite Ho. cbn [call].
  unfold equalsStringCaseInsensitive.
  rewrite (iequals_congr_l value value' (nameToMatch o) Hu).
  now rewrite (IH Hl).
Qed.

Lemma filterKnobChoiceOptionLoop_value_case
  (l : list KnobChoiceOptionFilter) (pluginId : string)
  (pM pm nM nm nr : Z) (paramName value value' : string) :
  optionsIgnoreCase l = true ->
  upcase value = upcase value' ->
  filterKnobChoiceOptionLoop l pluginId pM pm nM nm nr paramName value' =
  let res :=
    filterKnobChoiceOptionLoop l pluginId pM pm nM nm nr paramName value in
  (fst res, if fst res then snd res else value').
Proof.
  unfold optionsIgnoreCase. intros Hl Hu.
  induction l as [|f l IH]; [reflexivity|].
  cbn [forallb] in Hl. apply andb_true_iff in Hl. destruct Hl as (Hf & Hl).
  rewrite !filterKnobChoiceOptionLoop_cons.
  rewrite <- (scanOptionFilters_letter_case _ value value' Hf Hu).
  destruct (matchKnobFilterInternal f paramName pluginId pM pm nM nm nr &&
            scanOptionFilters (optionFilters f) value);
    [reflexivity | exact (IH Hl)].
Qed.

(** X14. The option lookup ignores the letter case of the value: two
    values that differ in the case of their letters only are rewritten
    together, to the same replacement, or left alone together. *)
Theorem filterKnobChoiceOptionCompat_value_letter_case :
  forall (names : OfxNatronNames) (pluginId : string)
         (pM pm nM nm nr : Z) (paramName value value' : string),
    upcase value = upcase value' ->
    filterKnobChoiceOptionCompat pluginId pM pm nM nm nr paramName value' =
    let res :=
      filterKnobChoiceOptionCompat pluginId pM pm nM nm nr paramName value in
    (fst res, if fst res then snd res else value').
Proof.
  intros names pluginId pM pm nM nm nr paramName value value' Hu.
  unfold filterKnobChoiceOptionCompat.
  apply filterKnobChoiceOptionLoop_value_case; [|exact Hu].
  vm_compute. reflexivity.
Qed.

Lemma gate_refuses (f : KnobChoiceOptionFilter) (paramName pluginId : string)
  (pM pm nM nm nr : Z) :
  existsb (fun it => call (func (filter it)) paramName
                       (nameToMatch (filter it))) (filters f) = false ->
  filters f <> [] ->
  matchKnobFilterInternal f paramName pluginId pM pm nM nm nr = false.
Proof.
  intros He Hne. apply matchKnobFilterInternal_no_name; [exact Hne|].
  intros it Hin.
  destruct (call (func (filter it)) paramName (nameToMatch (filter it)))
    eqn:Hc; [|reflexivity].
  assert (Ht : existsb (fun it => call (func (filter it)) paramName
                                    (nameToMatch (filter it))) (filters f)
               = true)
    by (apply existsb_exists; exists it; auto).
  congruence.
Qed.

Section OptionGates.

Context {names : OfxNatronNames}.
Variables (paramName pluginId : string) (pM pm nM nm nr : Z).

(** The name patterns of the three groups of the option registry. *)
Lemma planeFilter_names (repl : string) (options : list string) :
  existsb (fun it => call (func (filter it)) paramName
                       (nameToMatch (filter it)))
          (filters (planeFilter repl options)) =
  planeParameter paramName.
Proof.
  rewrite planeFilter_shape. unfold planeParameter. simpl.
  now rewrite orb_false_r.
Qed.

Lemma channelFilter_names (options : list string) (repl : string) :
  existsb (fun it => call (func (filter it)) paramName
                       (nameToMatch (filter it)))
          (filters (channelFilter options repl)) =
  channelParameter paramName.
Proof.
  rewrite channelFilter_shape.
  change (filters _) with (choiceFilters channelsFilterBase).
  unfold channelParameter.
  change (choiceFilters channelsFilterBase) with
    [ newKnobMatch "maskChannel" fn_startsWith;
      newKnobMatch "premultChannel" fn_equalsStringCaseSensitive;
      mkKnobMatch (plugin (nth 2 (choiceFilters channelsFilterBase)
                             (newKnobMatch "" fn_startsWith)))
        (mkFilterMatcher "channelU" fn_equalsStringCaseSensitive);
      mkKnobMatch (plugin (nth 3 (choiceFilters channelsFilterBase)
                             (newKnobMatch "" fn_startsWith)))
        (mkFilterMatcher "channelV" fn_equalsStringCaseSensitive);
      mkKnobMatch (plugin (nth 4 (choiceFilters channelsFilterBase)
                             (newKnobMatch "" fn_startsWith)))
        (mkFilterMatcher "outputR" fn_equalsStringCaseSensitive);
      mkKnobMatch (plugin (nth 5 (choiceFilters channelsFilterBase)
                             (newKnobMatch "" fn_startsWith)))
        (mkFilterMatcher "outputG" fn_equalsStringCaseSensitive);
      mkKnobMatch (plugin (nth 6 (choiceFilters channelsFilterBase)
                             (newKnobMatch "" fn_startsWith)))
        (mkFilterMatcher "outputB" fn_equalsStringCaseSensitive);
      mkKnobMatch (plugin (nth 7 (choiceFilters channelsFilterBase)
                             (newKnobMatch "" fn_startsWith)))
        (mkFilterMatcher "outputA" fn_equalsStringCaseSensitive) ].
  cbn [existsb filter func nameToMatch call newKnobMatch].
  now rewrite orb_false_r, !orb_assoc.
Qed.

End OptionGates.

(** X15. A parameter whose name no alternative of the option registry
    accepts is never rewritten: when the name is neither [outputChannels]
    nor ends with [channels], does not start with [maskChannel], and is
    none of [premultChannel], [channelU], [channelV], [outputR], [outputG],
    [outputB], [outputA], [frameRange], [bitDepth], the lookup returns
    false and leaves the value, for every plug-in, version and value. *)
Theorem filterKnobChoiceOptionCompat_unknown_parameter :
  forall (names : OfxNatronNames) (pluginId : string)
         (pM pm nM nm nr : Z) (paramName value : string),
    planeParameter paramName = false ->
    channelParameter paramName = false ->
    writerParameter paramName = false ->
    filterKnobChoiceOptionCompat pluginId pM pm nM nm nr paramName value =
    (false, value).
Proof.
  intros names pluginId pM pm nM nm nr paramName value Hp Hc Hw.
  unfold filterKnobChoiceOptionCompat.
  destruct (filterKnobChoiceOptionLoop_cases pluginId pM pm nM nm nr
              knobChoiceOptionFilters paramName value)
    as [(f & Hin & Hf & _)|(_ & E)]; [|exact E].
  apply andb_true_iff in Hf. destruct Hf as (Hf & _).
  assert (Hno : matchKnobFilterInternal f paramName pluginId pM pm nM nm nr
                = false); [|congruence].
  apply orb_false_iff in Hw. destruct Hw as (Hw1 & Hw2).
  unfold knobChoiceOptionFilters in Hin. simpl in Hin.
  repeat (destruct Hin as [<-|Hin]); try contradiction;
    (apply gate_refuses;
     [ first [ rewrite planeFilter_names; exact Hp
             | rewrite channelFilter_names; exact Hc
             | cbn; rewrite orb_false_r; assumption ]
     | first [ rewrite planeFilter_shape; discriminate
             | rewrite channelFilter_shape; discriminate
             | discriminate ] ]).
Qed.

Lemma scanOptionFilters_patterns (options : list string) (value : string) :
  scanOptionFilters
    (map (fun o => mkFilterMatcher o fn_equalsStringCaseInsensitive) options)
    value =
  existsb (equalsStringCaseInsensitive value) options.
Proof.
  induction options as [|o options IH]; [reflexivity|].
  cbn [map scanOptionFilters existsb func nameToMatch call]. rewrite IH.
  now destruct (equalsStringCaseInsensitive value o).
Qed.

(** The gates of a plane filter: any plug-in, the two name patterns, up
    to Natron 2.2.99. *)
Lemma planeFilter_accepts (repl : string) (options : list string)
  (paramName pluginId : string) (pM pm nM nm nr : Z) :
  matchKnobFilterInternal (planeFilter repl options) paramName pluginId
    pM pm nM nm nr =
  negb (natronVersionAboveMax (mkNatronVersionMatch 2 2 99) nM nm nr) &&
  planeParameter paramName.
Proof.
  rewrite <- (planeFilter_names paramName repl options).
  rewrite planeFilter_shape. unfold matchKnobFilterInternal.
  cbn [natronVersionMin natronVersionMax filters KnobChoiceOptionFilter_like
       choiceVersionMin choiceVersionMax choiceFilters].
  rewrite natronVersionBelowMin_open by reflexivity.
  destruct (natronVersionAboveMax _ nM nm nr); [reflexivity|].
  cbn [negb andb list_empty].
  now rewrite scanKnobMatches_anyPlugin by reflexivity.
Qed.

(** X16. For a parameter named [outputChannels] or whose name ends with
    [channels], at a host version up to 2.2.99 or unknown, a value that is
    a legacy plane name in any letter case is rewritten to the identifier
    of that plane, for every plug-in. *)
Theorem filterKnobChoiceOptionCompat_planes :
  forall (names : OfxNatronNames) (pluginId : string)
         (pM pm nM nm nr : Z) (paramName value r : string),
    planeParameter paramName = true ->
    upTo_2_2_99 nM nm nr ->
    legacyPlane value = Some r ->
    filterKnobChoiceOptionCompat pluginId pM pm nM nm nr paramName value =
    (true, r).
Proof.
  intros names pluginId pM pm nM nm nr paramName value r Hp Hv Hr.
  apply natronVersionAboveMax_2_2_99 in Hv.
  unfold filterKnobChoiceOptionCompat, knobChoiceOptionFilters.
  rewrite !filterKnobChoiceOptionLoop_cons.
  rewrite !planeFilter_accepts, Hv, Hp.
  rewrite !planeFilter_shape.
  cbn [optionFilters replacement KnobChoiceOptionFilter_like
       choiceReplacement negb andb].
  rewrite !scanOptionFilters_patterns.
  unfold legacyPlane in Hr. revert Hr.
  destruct (existsb (equalsStringCaseInsensitive value) _);
    [intros [= <-]; reflexivity|].
  cbn [existsb]. rewrite !orb_false_r.
  destruct (equalsStringCaseInsensitive value "Backward.Motion");
    [intros [= <-]; reflexivity|].
  destruct (equalsStringCaseInsensitive value "Forward.Motion");
    [intros [= <-]; reflexivity|].
  destruct (equalsStringCaseInsensitive value "DisparityLeft.Disparity");
    [intros [= <-]; reflexivity|].
  destruct (equalsStringCaseInsensitive value "DisparityRight.Disparity");
    [intros [= <-]; reflexivity|].
  discriminate.
Qed.

(** The gates of a filter of the shape of the writer filters: one
    parameter name, the plug-ins of the family [fr.inria.], and a host
    range that is open below. *)
Lemma writerFilter_accepts (param repl : string)
  (options : list FilterMatcher) (vmax : NatronVersionMatch)
  (paramName pluginId : string) (pM pm nM nm nr : Z) :
  matchKnobFilterInternal
    (mkKnobChoiceOptionFilter
       [ mkKnobMatch
           [ mkPluginMatch "fr.inria." (-1) (-1) (-1) (-1) fn_startsWith ]
           (mkFilterMatcher param fn_equalsStringCaseSensitive) ]
       options repl NatronVersionMatch_default vmax)
    paramName pluginId pM pm nM nm nr =
  negb (natronVersionAboveMax vmax nM nm nr) &&
  startsWith pluginId "fr.inria." &&
  equalsStringCaseSensitive paramName param.
Proof.
  unfold matchKnobFilterInternal.
  cbn [natronVersionMin natronVersionMax filters KnobChoiceOptionFilter_like
       choiceVersionMin choiceVersionMax choiceFilters].
  rewrite natronVersionBelowMin_open by reflexivity.
  destruct (natronVersionAboveMax vmax nM nm nr); [reflexivity|].
  cbn [negb andb list_empty].
  rewrite scanKnobMatches_open_spec by reflexivity.
  cbn [existsb]. unfold knobMatchSpec, pluginGateSpec.
  cbn [plugin filter func nameToMatch list_empty orb existsb
       pluginFunc pluginID call].
  rewrite pluginVersionInRange_open by reflexivity.
  destruct (startsWith pluginId "fr.inria."),
    (equalsStringCaseSensitive paramName param); reflexivity.
Qed.

Lemma writerFilter_shape (repl param option : string) :
  writerFilter repl param option [] =
  mkKnobChoiceOptionFilter
    [ mkKnobMatch
        [ mkPluginMatch "fr.inria." (-1) (-1) (-1) (-1) fn_startsWith ]
        (mkFilterMatcher param fn_equalsStringCaseSensitive) ]
    [ mkFilterMatcher option fn_equalsStringCaseInsensitive ]
    repl NatronVersionMatch_default NatronVersionMatch_default /\
  forall major minor rev,
    writerFilter repl param option [ setNatronVersionMax major minor rev ] =
    mkKnobChoiceOptionFilter
      [ mkKnobMatch
          [ mkPluginMatch "fr.inria." (-1) (-1) (-1) (-1) fn_startsWith ]
          (mkFilterMatcher param fn_equalsStringCaseSensitive) ]
      [ mkFilterMatcher option fn_equalsStringCaseInsensitive ]
      repl NatronVersionMatch_default (mkNatronVersionMatch major minor rev).
Proof. split; reflexivity. Qed.

(** X17. The option lookup in closed form for the two parameters of the
    writers.  For [frameRange] the value [Timeline bounds] (any letter
    case) becomes [project] exactly when the plug-in identifier starts
    with ["fr.inria."] and the host major is unknown or at most 1.  For
    [bitDepth] the values [8i] and [16i] become [8u] and [16u] exactly
    when the plug-in identifier starts with ["fr.inria."], at every host
    version.  The plug-in version is not looked at. *)
Theorem filterKnobChoiceOptionCompat_writers :
  forall (names : OfxNatronNames) (pluginId : string)
         (pM pm nM nm nr : Z) (value : string),
    filterKnobChoiceOptionCompat pluginId pM pm nM nm nr "frameRange" value =
    (if startsWith pluginId "fr.inria." &&
        ((nM =? -1) || (nM <=? 1)) &&
        equalsStringCaseInsensitive value "Timeline bounds"
     then (true, "project") else (false, value)) /\
    filterKnobChoiceOptionCompat pluginId pM pm nM nm nr "bitDepth" value =
    (if startsWith pluginId "fr.inria."
     then if equalsStringCaseInsensitive value "8i" then (true, "8u")
          else if equalsStringCaseInsensitive value "16i" then (true, "16u")
          else (false, value)
     else (false, value)).
Proof.
  intros names pluginId pM pm nM nm nr value.
  assert (Hskip : forall paramName,
            planeParameter paramName = false ->
            channelParameter paramName = false ->
            forall g, In g (firstn 17 knobChoiceOptionFilters) ->
              matchKnobFilterInternal g paramName pluginId pM pm nM nm nr &&
              scanOptionFilters (optionFilters g) value = false).
  { intros paramName Hp Hc g Hin. apply andb_false_intro1.
    unfold knobChoiceOptionFilters in Hin. simpl in Hin.
    repeat (destruct Hin as [<-|Hin]); try contradiction;
      (apply gate_refuses;
       [ first [ rewrite planeFilter_names; exact Hp
               | rewrite channelFilter_names; exact Hc ]
       | first [ rewrite planeFilter_shape; discriminate
               | rewrite channelFilter_shape; discriminate ] ]). }
  assert (Hmax : natronVersionAboveMax (mkNatronVersionMatch 1 (-1) (-1))
                   nM nm nr = negb ((nM =? -1) || (nM <=? 1))).
  { unfold natronVersionAboveMax. simpl. rewrite Z.gtb_ltb.
    destruct (Z.eqb_spec nM (-1)), (Z.ltb_spec 1 nM), (Z.leb_spec nM 1);
      simpl; try reflexivity; lia. }
  pose proof (natronVersionAboveMax_open NatronVersionMatch_default nM nm nr
                eq_refl) as Hopen.
  unfold filterKnobChoiceOptionCompat.
  change knobChoiceOptionFilters
    with (firstn 17 knobChoiceOptionFilters ++
          [ writerFilter "project" "frameRange" "Timeline bounds"
              [ setNatronVersionMax 1 (-1) (-1) ];
            writerFilter "8u" "bitDepth" "8i" [];
            writerFilter "16u" "bitDepth" "16i" [] ]).
  rewrite (proj2 (writerFilter_shape "project" "frameRange" "Timeline bounds")).
  rewrite !(proj1 (writerFilter_shape _ _ _)).
  split;
    (rewrite filterKnobChoiceOptionLoop_skip
       by (apply Hskip; vm_compute; reflexivity));
    rewrite !filterKnobChoiceOptionLoop_cons;
    rewrite !writerFilter_accepts, Hmax, Hopen, negb_involutive;
    cbn [optionFilters scanOptionFilters func nameToMatch call replacement
         KnobChoiceOptionFilter_like choiceReplacement
         filterKnobChoiceOptionLoop negb].
  - change (equalsStringCaseSensitive "frameRange" "frameRange") with true.
    change (equalsStringCaseSensitive "frameRange" "bitDepth") with false.
    destruct (startsWith pluginId "fr.inria."),
      ((nM =? -1) || (nM <=? 1)),
      (equalsStringCaseInsensitive value "Timeline bounds"); reflexivity.
  - change (equalsStringCaseSensitive "bitDepth" "frameRange") with false.
    change (equalsStringCaseSensitive "bitDepth" "bitDepth") with true.
    destruct (startsWith pluginId "fr.inria."),
      ((nM =? -1) || (nM <=? 1)),
      (equalsStringCaseInsensitive value "8i"),
      (equalsStringCaseInsensitive value "16i"); reflexivity.
Qed.

(** X18. Changing only the letter case of the plug-in identifier never
    changes the result of the option lookup for a parameter other than
    [frameRange] and [bitDepth]: the filters that could apply compare the
    identifier with the default comparison. *)
Theorem filterKnobChoiceOptionCompat_plugin_letter_case :
  forall (names : OfxNatronNames) (pluginId pluginId' : string)
         (pM pm nM nm nr : Z) (paramName value : string),
    writerParameter paramName = false ->
    upcase pluginId = upcase pluginId' ->
    filterKnobChoiceOptionCompat pluginId pM pm nM nm nr paramName value =
    filterKnobChoiceOptionCompat pluginId' pM pm nM nm nr paramName value.
Proof.
  intros names pluginId pluginId' pM pm nM nm nr paramName value Hw Hu.
  apply orb_false_iff in Hw. destruct Hw as (Hw1 & Hw2).
  apply filterKnobChoiceOptionLoop_ext. intros f Hin.
  change knobChoiceOptionFilters
    with (firstn 17 knobChoiceOptionFilters ++
          skipn 17 knobChoiceOptionFilters) in Hin.
  apply in_app_or in Hin. destruct Hin as [Hin|Hin].
  - unfold matchKnobFilterInternal.
    rewrite (scanKnobMatches_letter_case pluginId pluginId' Hu (filters f)
               paramName pM pm); [reflexivity|].
    pose proof (@channel_filters_default_comparison names) as Hd.
    rewrite forallb_forall in Hd. exact (Hd f Hin).
  - cbn [skipn knobChoiceOptionFilters] in Hin.
    repeat (destruct Hin as [<-|Hin]); try contradiction;
      rewrite !gate_refuses;
      try reflexivity; try discriminate;
      cbn; rewrite orb_false_r; assumption.
Qed.

(** The gates of a channel filter on a parameter whose name starts with
    [maskChannel]: any plug-in, up to Natron 2.2.99. *)
Lemma channelFilter_maskChannel (options : list string)
  (repl pluginId suffix : string) (pM pm nM nm nr : Z) :
  matchKnobFilterInternal (channelFilter options repl)
    (String.append "maskChannel" suffix) pluginId pM pm nM nm nr =
  negb (natronVersionAboveMax (mkNatronVersionMatch 2 2 99) nM nm nr).
Proof.
  destruct (natronVersionAboveMax (mkNatronVersionMatch 2 2 99) nM nm nr)
    eqn:Hv.
  - rewrite channelFilter_shape. unfold matchKnobFilterInternal.
    cbn [natronVersionMin natronVersionMax filters KnobChoiceOptionFilter_like
         choiceVersionMin choiceVersionMax choiceFilters].
    rewrite Hv. now destruct (natronVersionBelowMin _ _ _ _).
  - apply channelFilter_accepts_maskChannel.
    now apply natronVersionAboveMax_2_2_99.
Qed.

(** X19. The option lookup in closed form for the mask parameters: for a
    parameter whose name starts with [maskChannel] and does not end with
    [channels], the value is rewritten exactly when the host version is
    not above 2.2.99 (or its major is unknown) and the value is a legacy
    channel name in any letter case; the replacement is the identifier of
    that channel.  Neither the plug-in nor its version is looked at. *)
Theorem filterKnobChoiceOptionCompat_maskChannel :
  forall (names : OfxNatronNames) (pluginId : string)
         (pM pm nM nm nr : Z) (suffix value : string),
    endsWith (String.append "maskChannel" suffix) "channels" = false ->
    filterKnobChoiceOptionCompat pluginId pM pm nM nm nr
      (String.append "maskChannel" suffix) value =
    if negb (natronVersionAboveMax (mkNatronVersionMatch 2 2 99) nM nm nr)
    then match legacyChannel value with
         | Some r => (true, r)
         | None => (false, value)
         end
    else (false, value).
Proof.
  intros names pluginId pM pm nM nm nr suffix value He.
  unfold filterKnobChoiceOptionCompat, knobChoiceOptionFilters.
  rewrite !filterKnobChoiceOptionLoop_cons.
  rewrite !planeFilter_accepts.
  replace (planeParameter (String.append "maskChannel" suffix)) with false
    by (unfold planeParameter; now rewrite He).
  rewrite !andb_false_r. cbn [andb].
  rewrite !channelFilter_maskChannel.
  rewrite !(proj1 (writerFilter_shape _ _ _)).
  rewrite (proj2 (writerFilter_shape "project" "frameRange" "Timeline bounds")).
  rewrite !writerFilter_accepts.
  change (equalsStringCaseSensitive (String.append "maskChannel" suffix)
            "frameRange") with false.
  change (equalsStringCaseSensitive (String.append "maskChannel" suffix)
            "bitDepth") with false.
  rewrite !andb_false_r. cbn [andb filterKnobChoiceOptionLoop].
  destruct (natronVersionAboveMax (mkNatronVersionMatch 2 2 99) nM nm nr);
    cbn [negb andb]; [reflexivity|].
  rewrite !channelFilter_shape.
  cbn [optionFilters replacement KnobChoiceOptionFilter_like
       choiceReplacement].
  rewrite !scanOptionFilters_patterns.
  unfold legacyChannel.
  repeat match goal with
         | |- context [existsb (equalsStringCaseInsensitive value) ?l] =>
             destruct (existsb (equalsStringCaseInsensitive value) l);
             [reflexivity|]
         end.
  reflexivity.
Qed.

Lemma shuffle_version_in_range (id : string) (cmp : stringFuncPtr)
  (pM pm : Z) :
  pluginVersionInRange (mkPluginMatch id 2 (-1) (-1) (-1) cmp) pM pm =
  (pM =? -1) || (2 <=? pM).
Proof.
  unfold pluginVersionInRange, pluginVersionBelowMin, pluginVersionAboveMax.
  simpl.
  destruct (Z.eqb_spec pM (-1)), (Z.ltb_spec pM 2), (Z.leb_spec 2 pM);
    simpl; try reflexivity; lia.
Qed.

(** The gates of a channel filter on the four output parameters of the
    shuffle plug-in. *)
Lemma channelFilter_shuffle_output (options : list string)
  (repl paramName pluginId : string) (pM pm nM nm nr : Z) :
  In paramName [ "outputR"; "outputG"; "outputB"; "outputA" ] ->
  matchKnobFilterInternal (channelFilter options repl) paramName pluginId
    pM pm nM nm nr =
  negb (natronVersionAboveMax (mkNatronVersionMatch 2 2 99) nM nm nr) &&
  equalsStringCaseInsensitive pluginId "net.sf.openfx.ShufflePlugin" &&
  ((pM =? -1) || (2 <=? pM)).
Proof.
  intros Hin. rewrite channelFilter_shape. unfold matchKnobFilterInternal.
  cbn [natronVersionMin natronVersionMax filters KnobChoiceOptionFilter_like
       choiceVersionMin choiceVersionMax choiceFilters].
  rewrite natronVersionBelowMin_open by reflexivity.
  destruct (natronVersionAboveMax _ nM nm nr); [reflexivity|].
  change (list_empty (choiceFilters channelsFilterBase)) with false.
  cbn [negb andb].
  rewrite channelsFilterBase_spec.
  rewrite <- (shuffle_version_in_range "net.sf.openfx.ShufflePlugin"
                fn_equalsStringCaseInsensitive pM pm).
  simpl in Hin.
  unfold knobMatchSpec, pluginGateSpec.
  repeat (destruct Hin as [<-|Hin]); try contradiction;
    cbn -[pluginVersionInRange iequals];
    rewrite ?andb_false_r, ?orb_false_r, ?andb_true_r; reflexivity.
Qed.

(** X20. The option lookup in closed form for the parameters [outputR],
    [outputG], [outputB] and [outputA]: the value is rewritten exactly when
    the host version is not above 2.2.99 (or its major is unknown), the
    plug-in identifier is [net.sf.openfx.ShufflePlugin] in any letter case,
    the plug-in major is unknown or at least 2, and the value is a legacy
    channel name in any letter case.  The minor version of the plug-in is
    not looked at. *)
Theorem filterKnobChoiceOptionCompat_shuffle_outputs :
  forall (names : OfxNatronNames) (pluginId : string)
         (pM pm nM nm nr : Z) (paramName value : string),
    In paramName [ "outputR"; "outputG"; "outputB"; "outputA" ] ->
    filterKnobChoiceOptionCompat pluginId pM pm nM nm nr paramName value =
    if negb (natronVersionAboveMax (mkNatronVersionMatch 2 2 99) nM nm nr) &&
       equalsStringCaseInsensitive pluginId "net.sf.openfx.ShufflePlugin" &&
       ((pM =? -1) || (2 <=? pM))
    then match legacyChannel value with
         | Some r => (true, r)
         | None => (false, value)
         end
    else (false, value).
Proof.
  intros names pluginId pM pm nM nm nr paramName value Hin.
  assert (Hp : planeParameter paramName = false /\
               equalsStringCaseSensitive paramName "frameRange" = false /\
               equalsStringCaseSensitive paramName "bitDepth" = false).
  { simpl in Hin.
    repeat (destruct Hin as [<-|Hin]); try contradiction;
      repeat split; reflexivity. }
  destruct Hp as (Hp & Hf & Hb).
  unfold filterKnobChoiceOptionCompat, knobChoiceOptionFilters.
  rewrite !filterKnobChoiceOptionLoop_cons.
  rewrite !planeFilter_accepts, Hp.
  rewrite !andb_false_r. cbn [andb].
  rewrite !(channelFilter_shuffle_output _ _ paramName pluginId
              pM pm nM nm nr Hin).
  rewrite !(proj1 (writerFilter_shape _ _ _)).
  rewrite (proj2 (writerFilter_shape "project" "frameRange" "Timeline bounds")).
  rewrite !writerFilter_accepts, Hf, Hb.
  rewrite !andb_false_r. cbn [andb filterKnobChoiceOptionLoop].
  destruct (negb (natronVersionAboveMax (mkNatronVersionMatch 2 2 99)
                    nM nm nr) &&
            equalsStringCaseInsensitive pluginId "net.sf.openfx.ShufflePlugin"
            && ((pM =? -1) || (2 <=? pM)));
    cbn [andb]; [|reflexivity].
  rewrite !channelFilter_shape.
  cbn [optionFilters replacement KnobChoiceOptionFilter_like
       choiceReplacement].
  rewrite !scanOptionFilters_patterns.
  unfold legacyChannel.
  repeat match goal with
         | |- context [existsb (equalsStringCaseInsensitive value) ?l] =>
             destruct (existsb (equalsStringCaseInsensitive value) l);
             [reflexivity|]
         end.
  reflexivity.
Qed.

(** ** Instances of the further properties on concrete inputs *)

Lemma natron_version_tests_lexicographic_witness :
  lexLt (2, 2, 99) (2, 3, 0).
Proof.
  exact (proj1 (proj2 (natron_version_tests_lexicographic
                         (mkNatronVersionMatch 2 2 99) 2 3 0
                         ltac:(lia) ltac:(simpl; lia) ltac:(simpl; lia)
                         ltac:(simpl; lia)))
           eq_refl).
Defined.

Lemma natron_version_tests_monotone_witness :
  natronVersionAboveMax (mkNatronVersionMatch 2 2 99) 3 0 0 = true.
Proof.
  refine (proj1 (natron_version_tests_monotone
                   (mkNatronVersionMatch 2 2 99) 2 3 0 3 0 0
                   ltac:(lia) ltac:(lia) _) eq_refl).
  left. unfold lexLt. lia.
Defined.

Lemma matchKnobFilterInternal_sound_witness :
  matchKnobFilterSpec (@nameFilter_R sampleNames) "r" "fr.inria.built-in.Roto"
    1 0 2 0 0 = true.
Proof.
  exact (matchKnobFilterInternal_sound KnobNameFilter KnobNameFilter_like
           (@nameFilter_R sampleNames) "r" "fr.inria.built-in.Roto"
           1 0 2 0 0 eq_refl).
Defined.

Lemma matchKnobFilterInternal_any_plugin_witness :
  matchKnobFilterInternal (planeFilter "plane" [ "RGBA" ]) "outputChannels"
    "net.sf.openfx.MergePlugin" 1 0 2 0 0 =
  matchKnobFilterInternal (planeFilter "plane" [ "RGBA" ]) "outputChannels"
    "com.example.Other" 7 3 2 0 0.
Proof.
  exact (matchKnobFilterInternal_any_plugin
           KnobChoiceOptionFilter KnobChoiceOptionFilter_like
           (planeFilter "plane" [ "RGBA" ]) "outputChannels"
           "net.sf.openfx.MergePlugin" "com.example.Other"
           1 0 7 3 2 0 0 eq_refl).
Defined.

Lemma open_versions_order_irrelevant_witness :
  scanPlugins
    [ mkPluginMatch "fr.inria." (-1) (-1) (-1) (-1) fn_startsWith;
      mkPluginMatch "net.sf.openfx." (-1) (-1) (-1) (-1) fn_startsWith ]
    "net.sf.openfx.Foo" 1 0 =
  scanPlugins
    [ mkPluginMatch "net.sf.openfx." (-1) (-1) (-1) (-1) fn_startsWith;
      mkPluginMatch "fr.inria." (-1) (-1) (-1) (-1) fn_startsWith ]
    "net.sf.openfx.Foo" 1 0.
Proof.
  exact (proj1 (open_versions_order_irrelevant "r" "net.sf.openfx.Foo" 1 0)
           [ mkPluginMatch "fr.inria." (-1) (-1) (-1) (-1) fn_startsWith;
             mkPluginMatch "net.sf.openfx." (-1) (-1) (-1) (-1) fn_startsWith ]
           [ mkPluginMatch "net.sf.openfx." (-1) (-1) (-1) (-1) fn_startsWith;
             mkPluginMatch "fr.inria." (-1) (-1) (-1) (-1) fn_startsWith ]
           (perm_swap _ _ []) eq_refl).
Defined.

Lemma filterKnobChoiceOptionCompat_value_letter_case_witness :
  @filterKnobChoiceOptionCompat sampleNames "net.sf.openfx.MergePlugin" 1 0
    2 0 0 "outputChannels" "rgba" =
  (true, "uk.co.thefoundry.OfxImagePlaneColour").
Proof.
  exact (filterKnobChoiceOptionCompat_value_letter_case sampleNames
           "net.sf.openfx.MergePlugin" 1 0 2 0 0 "outputChannels"
           "RGBA" "rgba" eq_refl).
Defined.

Lemma filterKnobChoiceOptionCompat_unknown_parameter_witness :
  @filterKnobChoiceOptionCompat sampleNames "net.sf.openfx.MergePlugin" 1 0
    2 0 0 "somethingElse" "RGBA" = (false, "RGBA").
Proof.
  exact (filterKnobChoiceOptionCompat_unknown_parameter sampleNames
           "net.sf.openfx.MergePlugin" 1 0 2 0 0 "somethingElse" "RGBA"
           eq_refl eq_refl eq_refl).
Defined.

Lemma filterKnobChoiceOptionCompat_planes_witness :
  @filterKnobChoiceOptionCompat sampleNames "net.sf.openfx.MergePlugin" 1 0
    2 1 0 "AChannels_channels" "forward.motion" =
  (true, "uk.co.thefoundry.OfxImagePlaneForwardMotionVector.Motion").
Proof.
  refine (filterKnobChoiceOptionCompat_planes sampleNames
            "net.sf.openfx.MergePlugin" 1 0 2 1 0 "AChannels_channels"
            "forward.motion" _ eq_refl _ eq_refl).
  right. right. left. split; [reflexivity | lia].
Defined.

Lemma filterKnobChoiceOptionCompat_plugin_letter_case_witness :
  @filterKnobChoiceOptionCompat sampleNames "net.sf.openfx.IDistort" 1 0
    2 0 0 "channelU" "A.r" =
  @filterKnobChoiceOptionCompat sampleNames "NET.SF.OPENFX.idistort" 1 0
    2 0 0 "channelU" "A.r".
Proof.
  exact (filterKnobChoiceOptionCompat_plugin_letter_case sampleNames
           "net.sf.openfx.IDistort" "NET.SF.OPENFX.idistort" 1 0 2 0 0
           "channelU" "A.r" eq_refl eq_refl).
Defined.

Lemma filterKnobChoiceOptionCompat_maskChannel_witness :
  @filterKnobChoiceOptionCompat sampleNames "net.sf.openfx.MergePlugin" 1 0
    2 0 0 "maskChannel_Mask" "UV.g" =
  (true, "uk.co.thefoundry.OfxImagePlaneColour.G").
Proof.
  exact (filterKnobChoiceOptionCompat_maskChannel sampleNames
           "net.sf.openfx.MergePlugin" 1 0 2 0 0 "_Mask" "UV.g" eq_refl).
Defined.

Lemma filterKnobChoiceOptionCompat_shuffle_outputs_witness :
  @filterKnobChoiceOptionCompat sampleNames "net.sf.openfx.ShufflePlugin" 1 0
    2 0 0 "outputR" "A.r" = (false, "A.r") /\
  @filterKnobChoiceOptionCompat sampleNames "net.sf.openfx.ShufflePlugin" 2 0
    2 0 0 "outputR" "A.r" =
  (true, "A.uk.co.thefoundry.OfxImagePlaneColour.R").
Proof.
  split.
  - exact (filterKnobChoiceOptionCompat_shuffle_outputs sampleNames
             "net.sf.openfx.ShufflePlugin" 1 0 2 0 0 "outputR" "A.r"
             (or_introl eq_refl)).
  - exact (filterKnobChoiceOptionCompat_shuffle_outputs sampleNames
             "net.sf.openfx.ShufflePlugin" 2 0 2 0 0 "outputR" "A.r"
             (or_introl eq_refl)).
Defined.

Lemma registries_agree_with_spec_witness :
  matchKnobFilterInternal
    (channelFilter [ "A.r" ] "A.uk.co.thefoundry.OfxImagePlaneColour.R")
    "outputG" "net.sf.openfx.ShufflePlugin" 1 0 2 0 0 =
  matchKnobFilterSpec
    (channelFilter [ "A.r" ] "A.uk.co.thefoundry.OfxImagePlaneColour.R")
    "outputG" "net.sf.openfx.ShufflePlugin" 1 0 2 0 0.
Proof.
  refine (proj2 (@registries_agree_with_spec sampleNames "outputG"
                   "net.sf.openfx.ShufflePlugin" 1 0 2 0 0) _ _).
  do 9 right. left. reflexivity.
Defined.

(** * The plug-in gate and the unknown versions, on the registries *)

(** ** A -1 supplied by the caller *)

Lemma sentinelTolerant_disables {FILTER : Type} `{KnobFilterLike FILTER}
  (f : FILTER) :
  sentinelTolerant f = true -> sentinelDisablesTests f.
Proof.
  unfold sentinelTolerant, sentinelDisablesTests. intros Ht.
  apply andb_true_iff in Ht. destruct Ht as (Ht & Hp).
  apply andb_true_iff in Ht. destruct Ht as (Ht & Hr).
  apply andb_true_iff in Ht. destruct Ht as (Hmin & Hm).
  apply Z.eqb_eq in Hmin. apply Z.leb_le in Hm, Hr.
  intros major minor rev minor' rev'.
  destruct (natronVersionMin f) as [aM am ar].
  destruct (natronVersionMax f) as [bM bm br].
  simpl in Hmin, Hm, Hr. subst aM.
  split; [split; reflexivity|].
  split; [|split].
  - split; unfold_gates; unfold openMinor; cbn [vMajor vMinor vRev]; z_bool.
  - split; unfold_gates; unfold openRev; cbn [vMajor vMinor vRev]; z_bool.
  - intros it p Hit Hin.
    rewrite forallb_forall in Hp. specialize (Hp it Hit).
    rewrite forallb_forall in Hp. specialize (Hp p Hin).
    apply andb_true_iff in Hp. destruct Hp as (Hpmin & Hpmax).
    apply Z.eqb_eq in Hpmin. apply Z.leb_le in Hpmax.
    destruct p as [id pMa pma pMb pmb cmp]. simpl in Hpmin, Hpmax. subst pma.
    split; [split; reflexivity|].
    split; unfold_gates; unfold openPluginMinor;
      cbn [pluginID pluginVersionMajorMin pluginVersionMinorMin
           pluginVersionMajorMax pluginVersionMinorMax pluginFunc];
      z_bool.
Qed.

Lemma registries_sentinelTolerant {names : OfxNatronNames} :
  forallb sentinelTolerant knobNameFilters = true /\
  forallb sentinelTolerant knobChoiceOptionFilters = true.
Proof. split; vm_compute; reflexivity. Qed.

(** C2. On every call of the two lookups a -1 supplied by the caller in a
    version field (host major, minor or revision; plug-in major or minor)
    disables the version constraints on that field and on every finer
    field: for every filter of the two registries each version test then
    equals the test against the bound with these fields opened, whatever
    the finer fields of the caller hold; in particular a host version of
    (2, -1, -1) is judged by its major alone.  Accordingly the result of a
    lookup does not depend on the fields finer than a -1: not on the host
    minor and revision when the host major is -1, not on the host revision
    when the host minor is -1, not on the plug-in minor when the plug-in
    major is -1. *)
Theorem sentinel_disables_version_constraints :
  forall (names : OfxNatronNames),
    (forall f, In f knobNameFilters -> sentinelDisablesTests f) /\
    (forall f, In f knobChoiceOptionFilters -> sentinelDisablesTests f) /\
    (forall (pluginId : string) (pM pm pm' nM nm nr nm' nr' : Z)
            (paramName name : string),
       (filterKnobNameCompat pluginId pM pm (-1) nm nr name =
        filterKnobNameCompat pluginId pM pm (-1) nm' nr' name /\
        filterKnobNameCompat pluginId pM pm nM (-1) nr name =
        filterKnobNameCompat pluginId pM pm nM (-1) nr' name /\
        filterKnobNameCompat pluginId (-1) pm nM nm nr name =
        filterKnobNameCompat pluginId (-1) pm' nM nm nr name) /\
       (filterKnobChoiceOptionCompat pluginId pM pm (-1) nm nr paramName name =
        filterKnobChoiceOptionCompat pluginId pM pm (-1) nm' nr' paramName name /\
        filterKnobChoiceOptionCompat pluginId pM pm nM (-1) nr paramName name =
        filterKnobChoiceOptionCompat pluginId pM pm nM (-1) nr' paramName name /\
        filterKnobChoiceOptionCompat pluginId (-1) pm nM nm nr paramName name =
        filterKnobChoiceOptionCompat pluginId (-1) pm' nM nm nr paramName name)).
Proof.
  intros names.
  destruct (@registries_sentinelTolerant names) as (HN & HO).
  rewrite forallb_forall in HN, HO.
  split; [intros f Hin; apply sentinelTolerant_disables, HN, Hin|].
  split; [intros f Hin; apply sentinelTolerant_disables, HO, Hin|].
  intros pluginId pM pm pm' nM nm nr nm' nr' paramName name.
  split; (split; [|split]).
  - apply filterKnobNameLoop_ext. intros f _.
    apply (matchKnobFilterInternal_unknown_majors f name pluginId
             pM pm pm nM nm nr nm' nr').
  - apply filterKnobNameLoop_ext. intros f Hin.
    rewrite (proj1 (registries_minor_of_minus_one name pluginId pM pm pm nM nr)
               f Hin).
    now rewrite (proj1 (registries_minor_of_minus_one name pluginId pM pm pm
                          nM nr') f Hin).
  - apply filterKnobNameLoop_ext. intros f _.
    apply (matchKnobFilterInternal_unknown_majors f name pluginId
             pM pm pm' nM nm nr nm nr).
  - apply filterKnobChoiceOptionLoop_ext. intros f _.
    apply (matchKnobFilterInternal_unknown_majors f paramName pluginId
             pM pm pm nM nm nr nm' nr').
  - apply filterKnobChoiceOptionLoop_ext. intros f Hin.
    rewrite (proj2 (registries_minor_of_minus_one paramName pluginId
                      pM pm pm nM nr) f Hin).
    now rewrite (proj2 (registries_minor_of_minus_one paramName pluginId
                          pM pm pm nM nr') f Hin).
  - apply filterKnobChoiceOptionLoop_ext. intros f _.
    apply (matchKnobFilterInternal_unknown_majors f paramName pluginId
             pM pm pm' nM nm nr nm nr).
Qed.

(** ** The plug-in gate *)

Lemma scanPlugins_gate_iff (l : list PluginMatch) (pluginId : string)
  (pM pm : Z) :
  orderSafe l = true ->
  (scanPlugins l pluginId pM pm = LoopDone true <->
   pluginGateSpec l pluginId pM pm = true).
Proof.
  intros Hs. split.
  - intros E.
    pose proof (scanPlugins_spec l pluginId pM pm) as Hspec.
    rewrite E in Hspec. specialize (Hspec ltac:(discriminate)).
    now injection Hspec.
  - intros Hg. unfold orderSafe in Hs. apply orb_true_iff in Hs.
    destruct Hs as [Ho|Hlen].
    + rewrite scanPlugins_spec by now apply scanPlugins_open.
      now rewrite Hg.
    + destruct l as [|p [|q l]]; [discriminate| |discriminate].
      revert Hg. simpl. unfold pluginVersionInRange.
      destruct (call (pluginFunc p) pluginId (pluginID p)); simpl;
        [|discriminate].
      destruct (pluginVersionBelowMin p pM pm); simpl; [discriminate|].
      destruct (pluginVersionAboveMax p pM pm); simpl;
        [discriminate|reflexivity].
Qed.

Lemma scanPlugins_Permutation (l l' : list PluginMatch) (pluginId : string)
  (pM pm : Z) :
  orderSafe l = true -> Permutation l l' ->
  scanPlugins l pluginId pM pm = scanPlugins l' pluginId pM pm.
Proof.
  intros Hs Hp. unfold orderSafe in Hs. apply orb_true_iff in Hs.
  destruct Hs as [Ho|Hlen].
  - assert (Ho' : openVersions l' = true).
    { unfold openVersions in *. now rewrite <- (forallb_Permutation _ _ _ Hp). }
    rewrite !scanPlugins_spec by now apply scanPlugins_open.
    unfold pluginGateSpec. now rewrite (existsb_Permutation _ _ _ Hp).
  - destruct l as [|p [|q l]]; [| |discriminate].
    + now rewrite (Permutation_nil Hp).
    + now rewrite (Permutation_length_1_inv Hp).
Qed.

(** Replacing the constraints of one alternative by constraints on which
    the constraint loop ends the same way. *)
Lemma scanKnobMatches_replace (a1 a2 : list KnobMatch) (it : KnobMatch)
  (ps' : list PluginMatch) (name pluginId : string) (pM pm : Z) :
  scanPlugins ps' pluginId pM pm = scanPlugins (plugin it) pluginId pM pm ->
  list_empty ps' = list_empty (plugin it) ->
  scanKnobMatches (a1 ++ mkKnobMatch ps' (filter it) :: a2)
    name pluginId pM pm =
  scanKnobMatches (a1 ++ it :: a2) name pluginId pM pm.
Proof.
  intros Hs He. induction a1 as [|x a1 IH].
  - cbn [app scanKnobMatches plugin filter]. now rewrite Hs, He.
  - rewrite <- !app_comm_cons. cbn [scanKnobMatches]. now rewrite IH.
Qed.

Section PluginGate.

Context {FILTER : Type} `{KnobFilterLike FILTER}.

(** [set_filters] replaces the alternatives and nothing else. *)
Hypothesis filters_set : forall l (f : FILTER), filters (set_filters l f) = l.
Hypothesis min_set :
  forall l (f : FILTER),
    natronVersionMin (set_filters l f) = natronVersionMin f.
Hypothesis max_set :
  forall l (f : FILTER),
    natronVersionMax (set_filters l f) = natronVersionMax f.

Variable f : FILTER.
Hypothesis f_orderSafe :
  forallb (fun it => orderSafe (plugin it)) (filters f) = true.
Hypothesis f_spec :
  forall name pluginId pM pm nM nm nr,
    matchKnobFilterInternal f name pluginId pM pm nM nm nr =
    matchKnobFilterSpec f name pluginId pM pm nM nm nr.

Lemma pluginGateIsDisjunction_intro : pluginGateIsDisjunction f.
Proof.
  intros name pluginId pM pm nM nm nr.
  rewrite forallb_forall in f_orderSafe.
  split; [|split; [|split]].
  - intros it Hin _. apply scanPlugins_gate_iff, f_orderSafe, Hin.
  - apply f_spec.
  - intros it Hin Hmin Hmax Hit. rewrite f_spec.
    unfold matchKnobFilterSpec. rewrite Hmin, Hmax. cbn [negb andb].
    apply orb_true_iff. right. apply existsb_exists. exists it. auto.
  - intros a1 it a2 ps' Ef Hp.
    assert (Hin : In it (filters f))
      by (rewrite Ef; apply in_or_app; right; now left).
    unfold matchKnobFilterInternal.
    rewrite filters_set, min_set, max_set, Ef.
    rewrite (scanKnobMatches_replace a1 a2 it ps' name pluginId pM pm).
    + now destruct a1.
    + symmetry. apply scanPlugins_Permutation; [apply f_orderSafe, Hin | exact Hp].
    + destruct (plugin it) as [|p ps] eqn:Hpl.
      * now rewrite (Permutation_nil Hp).
      * destruct ps' as [|q qs]; [|reflexivity].
        apply Permutation_sym, Permutation_nil in Hp. discriminate.
Qed.

End PluginGate.

(** The two loops when one filter is replaced by a filter with the same
    answer of the matcher, the same replacement and the same patterns. *)
Lemma filterKnobNameLoop_replace (pre post : list KnobNameFilter)
  (f f' : KnobNameFilter) (pluginId : string) (pM pm nM nm nr : Z)
  (name : string) :
  matchKnobFilterInternal f' name pluginId pM pm nM nm nr =
  matchKnobFilterInternal f name pluginId pM pm nM nm nr ->
  replacement f' = replacement f ->
  filterKnobNameLoop (pre ++ f' :: post) pluginId pM pm nM nm nr name =
  filterKnobNameLoop (pre ++ f :: post) pluginId pM pm nM nm nr name.
Proof.
  intros Hm Hr. induction pre as [|g pre IH].
  - cbn [app filterKnobNameLoop]. now rewrite Hm, Hr.
  - rewrite <- !app_comm_cons. cbn [filterKnobNameLoop]. now rewrite IH.
Qed.

Lemma filterKnobChoiceOptionLoop_replace
  (pre post : list KnobChoiceOptionFilter) (f f' : KnobChoiceOptionFilter)
  (pluginId : string) (pM pm nM nm nr : Z) (paramName value : string) :
  matchKnobFilterInternal f' paramName pluginId pM pm nM nm nr =
  matchKnobFilterInternal f paramName pluginId pM pm nM nm nr ->
  replacement f' = replacement f ->
  optionFilters f' = optionFilters f ->
  filterKnobChoiceOptionLoop (pre ++ f' :: post) pluginId pM pm nM nm nr
    paramName value =
  filterKnobChoiceOptionLoop (pre ++ f :: post) pluginId pM pm nM nm nr
    paramName value.
Proof.
  intros Hm Hr Ho. induction pre as [|g pre IH].
  - cbn [app]. rewrite !filterKnobChoiceOptionLoop_cons.
    now rewrite Hm, Hr, Ho.
  - rewrite <- !app_comm_cons, !filterKnobChoiceOptionLoop_cons.
    now rewrite IH.
Qed.

Lemma registries_orderSafe {names : OfxNatronNames} :
  forallb (fun f => forallb (fun it => orderSafe (plugin it)) (filters f))
          knobNameFilters = true /\
  forallb (fun f => forallb (fun it => orderSafe (plugin it)) (filters f))
          knobChoiceOptionFilters = true.
Proof. split; vm_compute; reflexivity. Qed.

(** C1. On every call of the two lookups, for every filter of the two
    registries, the plug-in gate is a plain disjunction
    ([pluginGateIsDisjunction]): the gate of an alternative that lists
    plug-ins passes exactly when one constraint has its identifier matching
    and the version in range; the filter matches exactly as the
    disjunction over its alternatives says, so that an alternative whose
    gate and name pattern match makes the rule match whatever the
    constraints and alternatives before it did; and permuting the
    constraints of an alternative of a registry filter changes neither the
    answer of the matcher nor the result of the lookup. *)
Theorem plugin_gate_is_disjunction_on_registries :
  forall (names : OfxNatronNames),
    (forall f, In f knobNameFilters -> pluginGateIsDisjunction f) /\
    (forall f, In f knobChoiceOptionFilters -> pluginGateIsDisjunction f) /\
    (forall pre f post a1 it a2 ps' pluginId pM pm nM nm nr name,
       knobNameFilters = pre ++ f :: post ->
       filters f = a1 ++ it :: a2 ->
       Permutation (plugin it) ps' ->
       filterKnobNameLoop
         (pre ++ set_filters (a1 ++ mkKnobMatch ps' (filter it) :: a2) f
              :: post)
         pluginId pM pm nM nm nr name =
       filterKnobNameCompat pluginId pM pm nM nm nr name) /\
    (forall pre f post a1 it a2 ps' pluginId pM pm nM nm nr paramName value,
       knobChoiceOptionFilters = pre ++ f :: post ->
       filters f = a1 ++ it :: a2 ->
       Permutation (plugin it) ps' ->
       filterKnobChoiceOptionLoop
         (pre ++ set_filters (a1 ++ mkKnobMatch ps' (filter it) :: a2) f
              :: post)
         pluginId pM pm nM nm nr paramName value =
       filterKnobChoiceOptionCompat pluginId pM pm nM nm nr paramName value).
Proof.
  intros names.
  destruct (@registries_orderSafe names) as (HN & HO).
  rewrite forallb_forall in HN, HO.
  assert (PN : forall f, In f knobNameFilters -> pluginGateIsDisjunction f).
  { intros f Hin. apply pluginGateIsDisjunction_intro; try reflexivity.
    - apply HN, Hin.
    - intros name pluginId pM pm nM nm nr.
      apply (registry_filters_are_spec name pluginId pM pm nM nm nr), Hin. }
  assert (PO : forall f, In f knobChoiceOptionFilters ->
                         pluginGateIsDisjunction f).
  { intros f Hin. apply pluginGateIsDisjunction_intro; try reflexivity.
    - apply HO, Hin.
    - intros name pluginId pM pm nM nm nr.
      apply (registry_filters_are_spec name pluginId pM pm nM nm nr), Hin. }
  split; [exact PN|]. split; [exact PO|]. split.
  - intros pre f post a1 it a2 ps' pluginId pM pm nM nm nr name E Ef Hp.
    unfold filterKnobNameCompat. rewrite E.
    apply filterKnobNameLoop_replace; [|reflexivity].
    assert (Hin : In f knobNameFilters)
      by (rewrite E; apply in_or_app; right; now left).
    exact (proj2 (proj2 (proj2 (PN f Hin name pluginId pM pm nM nm nr)))
             a1 it a2 ps' Ef Hp).
  - intros pre f post a1 it a2 ps' pluginId pM pm nM nm nr paramName value
      E Ef Hp.
    unfold filterKnobChoiceOptionCompat. rewrite E.
    apply filterKnobChoiceOptionLoop_replace; [|reflexivity|reflexivity].
    assert (Hin : In f knobChoiceOptionFilters)
      by (rewrite E; apply in_or_app; right; now left).
    exact (proj2 (proj2 (proj2 (PO f Hin paramName pluginId pM pm nM nm nr)))
             a1 it a2 ps' Ef Hp).
Qed.

(** ** Instances on concrete inputs *)

Lemma sentinel_disables_version_constraints_witness :
  natronVersionAboveMax (natronVersionMax (@nameFilter_R sampleNames))
    2 (-1) (-1) =
  natronVersionAboveMax
    (openMinor (natronVersionMax (@nameFilter_R sampleNames))) 2 5 7.
Proof.
  pose proof (proj1 (sentinel_disables_version_constraints sampleNames)
                (@nameFilter_R sampleNames) (or_introl eq_refl)
                2 0 (-1) 5 7) as (_ & (_ & Hminor) & _).
  exact Hminor.
Defined.

Lemma plugin_gate_is_disjunction_on_registries_witness :
  filterKnobNameLoop
    ([] ++
     set_filters
       ([] ++
        mkKnobMatch
          [ mkPluginMatch "net.sf.openfx." (-1) (-1) (-1) (-1) fn_startsWith;
            mkPluginMatch "fr.inria." (-1) (-1) (-1) (-1) fn_startsWith ]
          (filter (newKnobMatch "r" fn_equalsStringCaseSensitive))
        :: skipn 1 (filters (@nameFilter_R sampleNames)))
       (@nameFilter_R sampleNames)
     :: skipn 1 (@knobNameFilters sampleNames))
    "net.sf.openfx.Foo" 1 0 2 0 0 "r" =
  @filterKnobNameCompat sampleNames "net.sf.openfx.Foo" 1 0 2 0 0 "r".
Proof.
  exact (proj1 (proj2 (proj2 (plugin_gate_is_disjunction_on_registries
                                sampleNames)))
           [] (@nameFilter_R sampleNames) (skipn 1 (@knobNameFilters sampleNames))
           [] (nth 0 (filters (@nameFilter_R sampleNames))
                 (newKnobMatch "" fn_startsWith))
           (skipn 1 (filters (@nameFilter_R sampleNames)))
           [ mkPluginMatch "net.sf.openfx." (-1) (-1) (-1) (-1) fn_startsWith;
             mkPluginMatch "fr.inria." (-1) (-1) (-1) (-1) fn_startsWith ]
           "net.sf.openfx.Foo" 1 0 2 0 0 "r"
           eq_refl eq_refl (perm_swap _ _ [])).
Defined.
